(** * ChatbotX: the conversational retrieval-over-code chain

    A shallow embedding of
    [generative_app/chains/conversational_retrieval_over_code.py]:
    the output parser [parse_code], the token budgeter
    [_reduce_tokens_below_limit], the two entry points [_call] and
    [_acall] of the chain, and [save].

    Python [str] values are modelled as [string] (a sequence of 8-bit
    characters), [int] as [Z], [dict] as [gmap string _], exceptions as
    an explicit [result] type, and the calls to the external services
    (language model, retriever) as functions whose invocations are
    recorded in a trace. *)

From Stdlib Require Import ZArith Ascii.
From stdpp Require Import base option list gmap strings.

Local Open Scope Z_scope.

(** ** Python strings *)

Module Str.

(** [strip_prefix p s] is [Some r] when [s = p +:+ r] (the literal [p]
    matches at the start of [s]), and [None] otherwise. *)
Fixpoint strip_prefix (p s : string) : option string :=
  match p with
  | EmptyString => Some s
  | String a p' =>
      match s with
      | EmptyString => None
      | String b s' => if decide (a = b) then strip_prefix p' s' else None
      end
  end.

(** [find sub s]: the index of the first occurrence of [sub] in [s], as
    Python's [str.find] (with [None] for -1). *)
Fixpoint find (sub s : string) : option nat :=
  match strip_prefix sub s with
  | Some _ => Some 0%nat
  | None =>
      match s with
      | EmptyString => None
      | String _ s' => S <$> find sub s'
      end
  end.

(** [replace old new s] is Python's [s.replace(old, new)] for a non-empty
    [old]: every non-overlapping occurrence of [old], scanning from the
    left, is replaced by [new].  [skip] counts the characters of an
    occurrence that has just been replaced and are still to be passed
    over. *)
Fixpoint replace_from (old new : string) (skip : nat) (s : string) : string :=
  match s with
  | EmptyString => EmptyString
  | String c s' =>
      match skip with
      | S k => replace_from old new k s'
      | O =>
          match strip_prefix old s with
          | Some _ => new +:+ replace_from old new (String.length old - 1) s'
          | None => String c (replace_from old new 0 s')
          end
      end
  end.

Definition replace (old new s : string) : string := replace_from old new 0 s.

(** The line feed character and the one-character string holding it. *)
Definition lf : ascii := "010"%char.
Definition nl : string := String lf EmptyString.
Definition backtick : ascii := "`"%char.

(** The last character of a string, if it has one. *)
Fixpoint last_char (s : string) : option ascii :=
  match s with
  | EmptyString => None
  | String c EmptyString => Some c
  | String _ s' => last_char s'
  end.

End Str.

(** ** The regular expression of [parse_code]

    The pattern [```python(.*?)```(.*?)$] compiled with [re.DOTALL] is a
    sequence of literals, lazy capturing groups [(.*?)] in which [.]
    matches every character, and the end anchor [$].  The matcher below
    is the backtracking matcher of Python's [re] restricted to these
    items. *)

Module Re.

Inductive item :=
| Lit (s : string)     (* a literal string *)
| LazyAny              (* (.*?) with DOTALL: a capturing group *)
| EndAnchor.           (* $ without MULTILINE *)

(** [$] matches at the end of the string and just before a newline that
    is the last character of the string. *)
Definition at_end (s : string) : bool :=
  match s with
  | EmptyString => true
  | String c EmptyString => bool_decide (c = Str.lf)
  | _ => false
  end.

(** A lazy group followed by the continuation [k]: the group first tries
    to match nothing, and takes one more character each time the
    continuation fails.  The captured text is put in front of the groups
    captured by the continuation. *)
Fixpoint lazy_any (k : string → option (list string)) (s : string)
  : option (list string) :=
  match k s with
  | Some gs => Some (EmptyString :: gs)
  | None =>
      match s with
      | EmptyString => None
      | String c s' =>
          match lazy_any k s' with
          | Some (g :: gs) => Some (String c g :: gs)
          | _ => None
          end
      end
  end.

(** [match_here p s]: the pattern [p] matches a prefix of [s]; the result
    lists the texts of the capturing groups, in order. *)
Fixpoint match_here (p : list item) (s : string) : option (list string) :=
  match p with
  | [] => Some []
  | Lit l :: p' =>
      match Str.strip_prefix l s with
      | Some s' => match_here p' s'
      | None => None
      end
  | LazyAny :: p' => lazy_any (match_here p') s
  | EndAnchor :: p' => if at_end s then match_here p' s else None
  end.

(** What [(.*?)$] captures: the text up to the first position at which
    [$] matches, that is, [s] without a line feed that ends it. *)
Fixpoint upto_end (s : string) : string :=
  match s with
  | EmptyString => EmptyString
  | String c s' => if at_end s then EmptyString else String c (upto_end s')
  end.

(** [re.search]: the leftmost start position at which the pattern
    matches. *)
Fixpoint search (p : list item) (s : string) : option (list string) :=
  match match_here p s with
  | Some gs => Some gs
  | None =>
      match s with
      | EmptyString => None
      | String _ s' => search p s'
      end
  end.

End Re.

(** ** [parse_code] *)

Definition fence_open : string := "```python".
Definition fence_close : string := "```".

Definition pattern : list Re.item :=
  [Re.Lit fence_open; Re.LazyAny; Re.Lit fence_close; Re.LazyAny; Re.EndAnchor].

(** The pair [(python_code, explain_code)]; [None] is Python's [None]. *)
Definition parse_code (output : string) : option string * option string :=
  match Re.search pattern output with
  | Some [g1; g2] =>
      let python_code := Some g1 in
      let explain_code := Some g2 in
      let python_code :=
        if decide (g1 = "None") then None else python_code in
      (python_code, explain_code)
  | _ => (None, None)
  end.

(** ** Values, exceptions and the call trace *)

(** [langchain.schema.Document]. *)
Record Document := mkDocument {
  page_content : string;
  metadata : list (string * string);
}.

(** The Python values that the chain stores in its input and output
    dictionaries. *)
Inductive pyval :=
| PNone
| PBool (b : bool)
| PStr (s : string)
| PTurns (turns : list (string * string))   (* a chat history of (human, ai) tuples *)
| PDocs (docs : list Document).

Inductive exn :=
| KeyError (key : string)
| IndexError
| TypeError (msg : string)
| ValueError (msg : string)
| ServiceError (msg : string)   (* raised inside an external service *)
| Diverged.                     (* a loop of the model ran out of fuel *)

Inductive result (A : Type) :=
| Ok (a : A)
| Raise (e : exn).
Arguments Ok {A} a.
Arguments Raise {A} e.

Global Instance result_ret : MRet result := λ A a, Ok a.
Global Instance result_fmap : FMap result := λ A B f r,
  match r with
  | Ok a => Ok (f a)
  | Raise e => Raise e
  end.
Global Instance result_bind : MBind result := λ A B f r,
  match r with
  | Ok a => f a
  | Raise e => Raise e
  end.

(** The blocking services ([run], [get_relevant_documents]) and the
    suspendable ones ([arun], [aget_relevant_documents]). *)
Inductive mode := Blocking | Suspendable.

(** One entry per call made to an external service, with its arguments
    and its response. *)
Inductive event :=
| Condense (m : mode) (question : pyval) (resp : result string)
| Retrieve (m : mode) (query : string) (resp : result (list Document))
| Synthesize (m : mode) (input_documents : list Document)
    (kwargs : gmap string pyval) (resp : result string)
| Critique (code : string) (resp : result string).

(** A computation returns or raises, and records the service calls it
    made, oldest first. *)
Definition M (A : Type) : Type := result A * list event.

Global Instance M_ret : MRet M := λ A a, (Ok a, []).
Global Instance M_bind : MBind M := λ A B f m,
  match m with
  | (Ok a, tr) => let '(r, tr') := f a in (r, tr ++ tr')
  | (Raise e, tr) => (Raise e, tr)
  end.

(** A step that makes no service call. *)
Definition lift {A} (r : result A) : M A := (r, []).

(** A service call with response [r], recorded as [e]. *)
Definition call {A} (e : event) (r : result A) : M A := (r, [e]).

(** ** Python lists and dictionaries *)

(** [l[i]], with negative indices counted from the end. *)
Definition py_index {A} (l : list A) (i : Z) : result A :=
  let n := Z.of_nat (length l) in
  let j := if i <? 0 then i + n else i in
  if (0 <=? j) && (j <? n) then
    match l !! Z.to_nat j with
    | Some x => Ok x
    | None => Raise IndexError
    end
  else Raise IndexError.

(** [l[:n]], with a negative [n] counted from the end. *)
Definition py_slice_to {A} (l : list A) (n : Z) : list A :=
  if n <? 0 then take (Z.to_nat (Z.of_nat (length l) + n)) l
  else take (Z.to_nat n) l.

(** [sum(l)] on integers. *)
Definition py_sum (l : list Z) : Z := foldr Z.add 0 l.

(** [d[k]]. *)
Definition dict_get (d : gmap string pyval) (k : string) : result pyval :=
  match d !! k with
  | Some v => Ok v
  | None => Raise (KeyError k)
  end.

(** An optional string as a Python value. *)
Definition of_opt_str (o : option string) : pyval :=
  match o with
  | Some s => PStr s
  | None => PNone
  end.

(** ** The chain *)

(** The fields of [ConversationalRetrievalCodeChain] (with those of its
    base class).  The sub-chains and the retriever are external services:
    each is given by the response it returns, or the exception it raises,
    on each argument. *)
Record Chain := mkChain {
  (* combine_docs_chain.run / .arun *)
  combine_docs_chain_run : list Document → gmap string pyval → result string;
  combine_docs_chain_arun : list Document → gmap string pyval → result string;
  (* isinstance(combine_docs_chain, StuffDocumentsChain) *)
  combine_docs_chain_is_stuff : bool;
  (* combine_docs_chain.llm_chain.llm.get_num_tokens *)
  get_num_tokens : string → Z;
  (* question_generator.run / .arun *)
  question_generator_run : pyval → result string;
  question_generator_arun : pyval → result string;
  output_key : list string;
  (* constitutional_chain.run *)
  constitutional_chain_run : string → result string;
  return_source_documents : bool;
  return_generated_question : bool;
  return_revision_request : bool;
  get_chat_history : option (pyval → result string);
  (* retriever.get_relevant_documents / .aget_relevant_documents *)
  retriever_get_relevant_documents : string → result (list Document);
  retriever_aget_relevant_documents : string → result (list Document);
  max_tokens_limit : option Z;
}.

(** *** [_reduce_tokens_below_limit] *)

(** The [while] loop: [fuel] bounds the number of iterations. *)
Fixpoint reduce_loop (fuel : nat) (limit : Z) (tokens : list Z)
    (num_docs token_count : Z) : result Z :=
  if limit <? token_count then
    match fuel with
    | O => Raise Diverged
    | S fuel' =>
        let num_docs := num_docs - 1 in
        t ← py_index tokens num_docs;
        reduce_loop fuel' limit tokens num_docs (token_count - t)
    end
  else Ok num_docs.

(** Truth value of an [Optional[int]]: [None] and [0] are false. *)
Definition truthy (limit : option Z) : bool :=
  match limit with
  | Some l => bool_decide (l ≠ 0)
  | None => false
  end.

Definition _reduce_tokens_below_limit (self : Chain) (docs : list Document)
  : result (list Document) :=
  let num_docs := Z.of_nat (length docs) in
  num_docs ←
    (if truthy (max_tokens_limit self) && combine_docs_chain_is_stuff self then
       let limit := default 0 (max_tokens_limit self) in
       let tokens := (λ doc, get_num_tokens self (page_content doc)) <$> docs in
       let token_count := py_sum (py_slice_to tokens num_docs) in
       reduce_loop (2 * length docs + 1) limit tokens num_docs token_count
     else Ok num_docs);
  Ok (py_slice_to docs num_docs).

(** The budgeter as the specification words it: with no limit the
    documents are returned unchanged; otherwise documents are dropped
    from the tail, one at a time, while the total cost of the documents
    kept exceeds the limit.  [n] is the number of documents kept so far. *)
Fixpoint spec_drop_tail (cost : Document → Z) (limit : Z) (n : nat)
    (docs : list Document) : list Document :=
  match n with
  | O => []
  | S n' =>
      if limit <? py_sum (cost <$> take n docs)
      then spec_drop_tail cost limit n' docs
      else take n docs
  end.

(** The number of documents, among the first [n], that the loop keeps
    when the limit is not negative. *)
Fixpoint keep_count (limit : Z) (tokens : list Z) (n : nat) : nat :=
  match n with
  | O => O
  | S n' =>
      if limit <? py_sum (take n tokens)
      then keep_count limit tokens n'
      else n
  end.

(** The token cost of a document for the chain [self]. *)
Definition doc_cost (self : Chain) (d : Document) : Z :=
  get_num_tokens self (page_content d).

Definition spec_reduce (cost : Document → Z) (stuff : bool)
    (limit : option Z) (docs : list Document) : list Document :=
  match limit with
  | Some l => if stuff then spec_drop_tail cost l (length docs) docs else docs
  | None => docs
  end.

(** *** [_get_docs] and [_aget_docs] *)

Definition _get_docs (self : Chain) (question : string)
    (inputs : gmap string pyval) : M (list Document) :=
  docs ← (let r := retriever_get_relevant_documents self question in
          call (Retrieve Blocking question r) r);
  lift (_reduce_tokens_below_limit self docs).

Definition _aget_docs (self : Chain) (question : string)
    (inputs : gmap string pyval) : M (list Document) :=
  docs ← (let r := retriever_aget_relevant_documents self question in
          call (Retrieve Suspendable question r) r);
  lift (_reduce_tokens_below_limit self docs).

(** [f(input_documents=docs, callbacks=..., **kwargs)]: a keyword given
    twice is a [TypeError], raised before [f] is entered. *)
Definition check_kwargs (kwargs : gmap string pyval) : result unit :=
  match kwargs !! "input_documents", kwargs !! "callbacks" with
  | None, None => Ok tt
  | _, _ => Raise (TypeError "got multiple values for keyword argument")
  end.

Section chain.

(** [langchain.chains.conversational_retrieval.base._get_chat_history],
    the default formatter of the chat history, and [Chain.save] of
    [langchain.chains.base], acting on a file system that maps paths to
    contents: both belong to the langchain library. *)
Variable _get_chat_history : pyval → result string.
Variable Chain_save :
  Chain → string → gmap string string → result unit * gmap string string.

(** *** [_call] *)

Definition _call (self : Chain) (inputs : gmap string pyval)
  : M (gmap string pyval) :=
  request ← lift (dict_get inputs "question");
  new_request ← (let r := question_generator_run self request in
                 call (Condense Blocking request r) r);
  docs ← _get_docs self new_request inputs;
  let new_inputs := inputs in
  (* Remove any mentions of streamlit or python from the question *)
  let new_request :=
    Str.replace "python" "" (Str.replace "streamlit" "" new_request) in
  let get_chat_history := default _get_chat_history (get_chat_history self) in
  history ← lift (dict_get inputs "chat_history");
  chat_history_str ← lift (get_chat_history history);
  let new_inputs := <["chat_history" := PStr chat_history_str]> new_inputs in
  _ ← lift (check_kwargs new_inputs);
  answer ← (let r := combine_docs_chain_run self docs new_inputs in
            call (Synthesize Blocking docs new_inputs r) r);
  let '(code, expl) := parse_code answer in
  is_code_not_safe ←
    match code with
    | Some c =>
        (* Run check code *)
        verdict ← (let r := constitutional_chain_run self c in
                   call (Critique c r) r);
        mret (PStr verdict)
    | None => mret (PBool true)
    end;
  k0 ← lift (py_index (output_key self) 0);
  k1 ← lift (py_index (output_key self) 1);
  let output : gmap string pyval :=
    <[k1 := of_opt_str expl]> (<[k0 := of_opt_str code]> ∅) in
  let output :=
    if return_source_documents self
    then <["source_documents" := PDocs docs]> output else output in
  let output :=
    if return_generated_question self
    then <["generated_question" := PStr new_request]> output else output in
  let output :=
    if return_revision_request self
    then <["revision_request" := is_code_not_safe]> output else output in
  mret output.

(** *** [_acall] *)

Definition _acall (self : Chain) (inputs : gmap string pyval)
  : M (gmap string pyval) :=
  request ← lift (dict_get inputs "question");
  new_request ← (let r := question_generator_arun self request in
                 call (Condense Suspendable request r) r);
  docs ← _aget_docs self new_request inputs;
  let new_inputs := inputs in
  (* Remove any mentions of streamlit or python from the question *)
  let new_request :=
    Str.replace "python" "" (Str.replace "streamlit" "" new_request) in
  let get_chat_history := default _get_chat_history (get_chat_history self) in
  history ← lift (dict_get inputs "chat_history");
  chat_history_str ← lift (get_chat_history history);
  let new_inputs := <["chat_history" := PStr chat_history_str]> new_inputs in
  _ ← lift (check_kwargs new_inputs);
  answer ← (let r := combine_docs_chain_arun self docs new_inputs in
            call (Synthesize Suspendable docs new_inputs r) r);
  let '(code, expl) := parse_code answer in
  is_code_not_safe ←
    match code with
    | Some c =>
        (* Run check code *)
        verdict ← (let r := constitutional_chain_run self c in
                   call (Critique c r) r);
        mret (PStr verdict)
    | None => mret (PBool true)
    end;
  k0 ← lift (py_index (output_key self) 0);
  k1 ← lift (py_index (output_key self) 1);
  let output : gmap string pyval :=
    <[k1 := of_opt_str expl]> (<[k0 := of_opt_str code]> ∅) in
  let output :=
    if return_source_documents self
    then <["source_documents" := PDocs docs]> output else output in
  let output :=
    if return_generated_question self
    then <["generated_question" := PStr new_request]> output else output in
  let output :=
    if return_revision_request self
    then <["revision_request" := is_code_not_safe]> output else output in
  mret output.

(** *** [save] *)

Definition save (self : Chain) (file_path : string) (fs : gmap string string)
  : result unit * gmap string string :=
  match get_chat_history self with
  | Some _ =>
      (Raise (ValueError "Chain not savable when `get_chat_history` is not None."),
       fs)
  | None => Chain_save self file_path fs
  end.

End chain.

(** ** The two entry points as one pipeline

    [_call] and [_acall] are the same sequence of steps and differ in the
    services they call: [pipeline Blocking] is [_call] and
    [pipeline Suspendable] is [_acall] (lemmas [call_pipeline] and
    [acall_pipeline]). *)

(** The response of each service in each mode. *)
Definition condense_resp (m : mode) (self : Chain) (request : pyval)
  : result string :=
  match m with
  | Blocking => question_generator_run self request
  | Suspendable => question_generator_arun self request
  end.

Definition retrieve_resp (m : mode) (self : Chain) (question : string)
  : result (list Document) :=
  match m with
  | Blocking => retriever_get_relevant_documents self question
  | Suspendable => retriever_aget_relevant_documents self question
  end.

Definition synthesize_resp (m : mode) (self : Chain) (docs : list Document)
    (kwargs : gmap string pyval) : result string :=
  match m with
  | Blocking => combine_docs_chain_run self docs kwargs
  | Suspendable => combine_docs_chain_arun self docs kwargs
  end.

Definition condense (m : mode) (self : Chain) (request : pyval) : M string :=
  let r := condense_resp m self request in
  call (Condense m request r) r.

Definition fetch (m : mode) (self : Chain) (question : string)
    (inputs : gmap string pyval) : M (list Document) :=
  docs ← (let r := retrieve_resp m self question in
          call (Retrieve m question r) r);
  lift (_reduce_tokens_below_limit self docs).

Definition synthesize (m : mode) (self : Chain) (docs : list Document)
    (kwargs : gmap string pyval) : M string :=
  let r := synthesize_resp m self docs kwargs in
  call (Synthesize m docs kwargs r) r.

(** The removal of the words streamlit and python. *)
Definition sanitize (q : string) : string :=
  Str.replace "python" "" (Str.replace "streamlit" "" q).

(** The critique step: [is_code_not_safe]. *)
Definition critic_step (self : Chain) (code : option string) : M pyval :=
  match code with
  | Some c =>
      verdict ← (let r := constitutional_chain_run self c in
                 call (Critique c r) r);
      mret (PStr verdict)
  | None => mret (PBool true)
  end.

(** The assembly of the output dictionary. *)
Definition assemble (self : Chain) (code expl : option string)
    (docs : list Document) (new_request : string) (is_code_not_safe : pyval)
  : M (gmap string pyval) :=
  k0 ← lift (py_index (output_key self) 0);
  k1 ← lift (py_index (output_key self) 1);
  let output : gmap string pyval :=
    <[k1 := of_opt_str expl]> (<[k0 := of_opt_str code]> ∅) in
  let output :=
    if return_source_documents self
    then <["source_documents" := PDocs docs]> output else output in
  let output :=
    if return_generated_question self
    then <["generated_question" := PStr new_request]> output else output in
  let output :=
    if return_revision_request self
    then <["revision_request" := is_code_not_safe]> output else output in
  mret output.

Definition pipeline (m : mode) (_get_chat_history : pyval → result string)
    (self : Chain) (inputs : gmap string pyval) : M (gmap string pyval) :=
  request ← lift (dict_get inputs "question");
  new_request ← condense m self request;
  docs ← fetch m self new_request inputs;
  history ← lift (dict_get inputs "chat_history");
  chat_history_str ←
    lift (default _get_chat_history (get_chat_history self) history);
  let new_inputs := <["chat_history" := PStr chat_history_str]> inputs in
  _ ← lift (check_kwargs new_inputs);
  answer ← synthesize m self docs new_inputs;
  let '(code, expl) := parse_code answer in
  is_code_not_safe ← critic_step self code;
  assemble self code expl docs (sanitize new_request) is_code_not_safe.

(** ** [input_keys] and [output_keys] *)

Definition input_keys (self : Chain) : list string := ["question"].

Definition output_keys (self : Chain) : list string :=
  let _output_keys := ["code"; "explanation"] in
  let _output_keys :=
    if return_source_documents self
    then _output_keys ++ ["source_documents"] else _output_keys in
  let _output_keys :=
    if return_generated_question self
    then _output_keys ++ ["generated_question"] else _output_keys in
  _output_keys.

(** ** Reading a trace *)

Inductive stage := SCondense | SRetrieve | SSynthesize | SCritique.

Definition stage_of (e : event) : stage :=
  match e with
  | Condense _ _ _ => SCondense
  | Retrieve _ _ _ => SRetrieve
  | Synthesize _ _ _ _ => SSynthesize
  | Critique _ _ => SCritique
  end.

(** The exception with which the service answered, if it raised. *)
Definition event_error (e : event) : option exn :=
  match e with
  | Condense _ _ (Raise x) | Retrieve _ _ (Raise x)
  | Synthesize _ _ _ (Raise x) | Critique _ (Raise x) => Some x
  | _ => None
  end.

(** The same call, made to the service of mode [m]; the critic has one
    mode only. *)
Definition set_mode (m : mode) (e : event) : event :=
  match e with
  | Condense _ question resp => Condense m question resp
  | Retrieve _ query resp => Retrieve m query resp
  | Synthesize _ docs kwargs resp => Synthesize m docs kwargs resp
  | Critique code resp => Critique code resp
  end.

(** ** The menu of [secure_app.py]

    The script registers the applications with the host application
    ([app.add_app]) and builds the navigation menu [complex_nav] from the
    access level and the name of the user that [app.check_access]
    returns. *)





(** ** The claims about a run, in the words of the specification *)

(** The question handed to the synthesizer is the condensed query, as
    the condenser returned it. *)
Definition synthesizer_gets_condensed_query (tr : list event) : Prop :=
  ∀ m docs kwargs resp, Synthesize m docs kwargs resp ∈ tr →
    ∃ m' request q,
      Condense m' request (Ok q) ∈ tr ∧ kwargs !! "question" = Some (PStr q).

(** The run fails before any service is called. *)
Definition rejected_without_calls {A} (run : M A) : Prop :=
  ∃ e, run = (Raise e, []).

(** The critic is not called and the verdict is the default. *)
Definition critic_skipped (self : Chain) (run : M (gmap string pyval)) : Prop :=
  (∀ c resp, Critique c resp ∉ run.2) ∧
  (∀ out, run.1 = Ok out → return_revision_request self = true →
     out !! "revision_request" = Some (PBool true)).

(** ** A concrete chain for the examples *)

Definition demo_docs : list Document :=
  [mkDocument "st.title sets the page title" [("source", "api.md")];
   mkDocument "st.button draws a button" [("source", "widgets.md")]].

(** A chain whose condenser, retriever and critic answer with fixed
    texts, whose synthesizer answers [answer], and whose suspendable
    services answer as the blocking ones. *)
Definition demo_chain (answer : string) : Chain := {|
  combine_docs_chain_run := λ _ _, Ok answer;
  combine_docs_chain_arun := λ _ _, Ok answer;
  combine_docs_chain_is_stuff := true;
  get_num_tokens := λ s, Z.of_nat (String.length s);
  question_generator_run := λ _, Ok "Write a streamlit todo list app";
  question_generator_arun := λ _, Ok "Write a streamlit todo list app";
  output_key := ["code"; "explanation"];
  constitutional_chain_run := λ _, Ok "False";
  return_source_documents := false;
  return_generated_question := true;
  return_revision_request := true;
  get_chat_history := None;
  retriever_get_relevant_documents := λ _, Ok demo_docs;
  retriever_aget_relevant_documents := λ _, Ok demo_docs;
  max_tokens_limit := None;
|}.

(** A chain whose synthesizer raises. *)
Definition failing_chain : Chain := {|
  combine_docs_chain_run := λ _ _, Raise (ServiceError "timeout");
  combine_docs_chain_arun := λ _ _, Raise (ServiceError "timeout");
  combine_docs_chain_is_stuff := true;
  get_num_tokens := λ s, Z.of_nat (String.length s);
  question_generator_run := λ _, Ok "Write a streamlit todo list app";
  question_generator_arun := λ _, Ok "Write a streamlit todo list app";
  output_key := ["code"; "explanation"];
  constitutional_chain_run := λ _, Ok "False";
  return_source_documents := false;
  return_generated_question := true;
  return_revision_request := true;
  get_chat_history := None;
  retriever_get_relevant_documents := λ _, Ok demo_docs;
  retriever_aget_relevant_documents := λ _, Ok demo_docs;
  max_tokens_limit := None;
|}.

(** A stand-in for langchain's default history formatter. *)
Definition demo_get_chat_history (v : pyval) : result string :=
  match v with
  | PTurns turns =>
      Ok (foldr (λ '(human, ai) acc,
                  Str.nl +:+ "Human: " +:+ human +:+ Str.nl
                  +:+ "Assistant: " +:+ ai +:+ acc) "" turns)
  | _ => Raise (ValueError "Unsupported chat history format")
  end.

(** A stand-in for langchain's [Chain.save]: it writes the file. *)
Definition demo_Chain_save (self : Chain) (file_path : string)
    (fs : gmap string string) : result unit * gmap string string :=
  (Ok tt, <[file_path := "chain"]> fs).

Definition demo_inputs (question : string) : gmap string pyval :=
  {[ "question" := PStr question; "chat_history" := PTurns [] ]}.

(** A chain with a token limit whose documents each cost [cost] tokens. *)
Definition budget_chain (limit : option Z) (cost : Z) : Chain := {|
  combine_docs_chain_run := λ _ _, Ok "";
  combine_docs_chain_arun := λ _ _, Ok "";
  combine_docs_chain_is_stuff := true;
  get_num_tokens := λ _, cost;
  question_generator_run := λ _, Ok "";
  question_generator_arun := λ _, Ok "";
  output_key := ["code"; "explanation"];
  constitutional_chain_run := λ _, Ok "";
  return_source_documents := false;
  return_generated_question := false;
  return_revision_request := false;
  get_chat_history := None;
  retriever_get_relevant_documents := λ _, Ok [];
  retriever_aget_relevant_documents := λ _, Ok [];
  max_tokens_limit := limit;
|}.

Definition doc (content : string) : Document := mkDocument content [].

(** * Properties *)

(** ** Strings *)

Lemma app_cons (c : ascii) (s t : string) :
  String c s +:+ t = String c (s +:+ t).
Proof. reflexivity. Qed.

Lemma app_empty_r (s : string) : s +:+ "" = s.
Proof. induction s as [|c s IH]; [done|]. by rewrite app_cons, IH. Qed.

Lemma strip_prefix_app (p r : string) : Str.strip_prefix p (p +:+ r) = Some r.
Proof.
  induction p as [|a p IH]; [done|].
  rewrite app_cons. simpl. by rewrite decide_True.
Qed.

Lemma find_app_here (sub r : string) : Str.find sub (sub +:+ r) = Some 0%nat.
Proof.
  pose proof (strip_prefix_app sub r) as H.
  destruct (sub +:+ r); simpl; by rewrite H.
Qed.

(** When the first occurrence of [sub] in [b +:+ r] is at the end of [b],
    [sub] matches at no earlier position. *)
Lemma find_first (sub b r : string) :
  Str.find sub (b +:+ r) = Some (String.length b) →
  ∀ b1 b2, b = b1 +:+ b2 → b2 ≠ "" → Str.strip_prefix sub (b2 +:+ r) = None.
Proof.
  induction b as [|c b IH]; intros Hfind b1 b2 Hb Hne.
  - destruct b1, b2; done.
  - rewrite app_cons in Hfind. simpl in Hfind.
    destruct (Str.strip_prefix sub (String c (b +:+ r))) eqn:Hp; [done|].
    destruct b1 as [|c1 b1].
    + change ("" +:+ b2) with b2 in Hb. subst b2. by rewrite app_cons.
    + rewrite app_cons in Hb. injection Hb as -> ->.
      apply (IH ltac:(by destruct (Str.find sub _); simplify_eq/=) b1 b2);
        done.
Qed.

Lemma find_cons_None (sub : string) (c : ascii) (s : string) :
  Str.find sub (String c s) = None →
  Str.strip_prefix sub (String c s) = None ∧ Str.find sub s = None.
Proof.
  cbn [Str.find]. destruct (Str.strip_prefix sub (String c s)); [done|].
  by destruct (Str.find sub s).
Qed.

(** A closing fence that starts in a non-empty [b] either lies in [b] or
    is made of the backticks that end [b]. *)
Lemma close_at_start (b r : string) :
  b ≠ "" →
  Str.strip_prefix fence_close b = None →
  Str.last_char b ≠ Some Str.backtick →
  Str.strip_prefix fence_close (b +:+ r) = None.
Proof.
  intros Hne Hp Hlast.
  destruct b as [|c1 [|c2 [|c3 b]]]; [done|..]; rewrite ?app_cons;
    unfold fence_close in *; simpl in *;
    repeat case_decide; subst; try done; by destruct Hlast.
Qed.

Lemma close_in_body (b r : string) :
  Str.find fence_close b = None →
  Str.last_char b ≠ Some Str.backtick →
  ∀ b1 b2, b = b1 +:+ b2 → b2 ≠ "" →
    Str.strip_prefix fence_close (b2 +:+ r) = None.
Proof.
  induction b as [|c b IH]; intros Hfind Hlast b1 b2 Hb Hne.
  - destruct b1, b2; done.
  - apply find_cons_None in Hfind as [Hp Hfind].
    destruct b1 as [|c1 b1].
    + change ("" +:+ b2) with b2 in Hb. subst b2.
      by apply close_at_start.
    + rewrite app_cons in Hb. injection Hb as -> ->.
      apply (IH Hfind ltac:(by destruct b1, b2) b1 b2); done.
Qed.

(** ** The matcher *)

Lemma lazy_any_first (k : string → option (list string)) (b r : string)
    (gs : list string) :
  k r = Some gs →
  (∀ b1 b2, b = b1 +:+ b2 → b2 ≠ "" → k (b2 +:+ r) = None) →
  Re.lazy_any k (b +:+ r) = Some (b :: gs).
Proof.
  intros Hk. induction b as [|c b IH]; intros Hno.
  - destruct r; simpl; by rewrite Hk.
  - pose proof (Hno "" (String c b) eq_refl ltac:(done)) as Hc.
    rewrite app_cons in *. cbn [Re.lazy_any]. rewrite Hc, IH; [done|].
    intros b1 b2 -> Hne. by apply (Hno (String c b1) b2).
Qed.

Lemma at_end_upto_end (s : string) : Re.at_end s = true → Re.upto_end s = "".
Proof. destruct s; simpl; [done|]. by intros ->. Qed.

(** The second group with the end anchor always matches. *)
Lemma lazy_any_anchor (k : string → option (list string)) (s : string) :
  (∀ t, k t = if Re.at_end t then Some [] else None) →
  Re.lazy_any k s = Some [Re.upto_end s].
Proof.
  intros Hk. induction s as [|c s IH]; cbn [Re.lazy_any Re.upto_end].
  - by rewrite Hk.
  - rewrite Hk, IH. by destruct (Re.at_end (String c s)).
Qed.

Lemma lazy_any_end (s : string) :
  Re.lazy_any (Re.match_here [Re.EndAnchor]) s = Some [Re.upto_end s].
Proof. by apply lazy_any_anchor. Qed.

Lemma upto_end_no_lf (s : string) :
  Str.last_char s ≠ Some Str.lf → Re.upto_end s = s.
Proof.
  induction s as [|c s IH]; [done|]. intros Hlast.
  cbn [Re.upto_end]. destruct s as [|c' s].
  - simpl. rewrite bool_decide_false; [done|]. intros ->. by apply Hlast.
  - cbn [Re.at_end]. f_equal. by apply IH.
Qed.

Lemma search_here (p : list Re.item) (s : string) (gs : list string) :
  Re.match_here p s = Some gs → Re.search p s = Some gs.
Proof. intros H. destruct s; cbn [Re.search]; by rewrite H. Qed.

(** The match of [pattern] on a text with a fence: the opening fence
    first occurs after [pre], and [body] neither contains the closing
    fence nor ends with a backtick. *)
Lemma search_fenced (pre body post : string) :
  Str.find fence_open (pre +:+ fence_open +:+ body +:+ fence_close +:+ post)
    = Some (String.length pre) →
  Str.find fence_close body = None →
  Str.last_char body ≠ Some Str.backtick →
  Re.search pattern (pre +:+ fence_open +:+ body +:+ fence_close +:+ post)
  = Some [body; Re.upto_end post].
Proof.
  intros Hopen Hclose Hlast.
  assert (Hhere : Re.match_here pattern
            (fence_open +:+ body +:+ fence_close +:+ post)
          = Some [body; Re.upto_end post]).
  { unfold pattern. cbn [Re.match_here]. rewrite strip_prefix_app.
    apply lazy_any_first.
    - by rewrite strip_prefix_app, lazy_any_end.
    - intros b1 b2 Hb Hne.
      by rewrite (close_in_body body _ Hclose Hlast b1 b2). }
  pose proof (find_first _ _ _ Hopen) as Hno. clear Hopen.
  induction pre as [|c pre IH].
  - by apply search_here.
  - pose proof (Hno "" (String c pre) eq_refl ltac:(done)) as Hc.
    rewrite app_cons in *. cbn [Re.search].
    assert (Re.match_here pattern
              (String c (pre +:+ fence_open +:+ body +:+ fence_close +:+ post))
            = None) as ->.
    { unfold pattern at 1. cbn [Re.match_here]. by rewrite Hc. }
    apply IH. intros b1 b2 -> Hne. by apply (Hno (String c b1) b2).
Qed.

(** ** The parser *)

Example parse_code_fenced :
  parse_code ("Here: ```python" +:+ Str.nl +:+ "x = 1" +:+ Str.nl +:+ "``` Done.")
  = (Some (Str.nl +:+ "x = 1" +:+ Str.nl), Some " Done.").
Proof. vm_compute. reflexivity. Qed.

Example parse_code_no_fence : parse_code "no code here" = (None, None).
Proof. vm_compute. reflexivity. Qed.

Example parse_code_sentinel :
  parse_code "```pythonNone```hello" = (None, Some "hello").
Proof. vm_compute. reflexivity. Qed.

Example parse_code_final_newline :
  parse_code ("```pythonx = 1```Done." +:+ Str.nl) = (Some "x = 1", Some "Done.").
Proof. vm_compute. reflexivity. Qed.

Example parse_code_backtick :
  parse_code "```pythonx````Done." = (Some "x", Some "`Done.").
Proof. vm_compute. reflexivity. Qed.

Example replace_twice :
  Str.replace "python" ""
    (Str.replace "streamlit" "" "a streamlit app in python3")
  = "a  app in 3".
Proof. vm_compute. reflexivity. Qed.

Lemma parse_code_fenced_eq (pre body post : string) :
  Str.find fence_open (pre +:+ fence_open +:+ body +:+ fence_close +:+ post)
    = Some (String.length pre) →
  Str.find fence_close body = None →
  Str.last_char body ≠ Some Str.backtick →
  parse_code (pre +:+ fence_open +:+ body +:+ fence_close +:+ post)
  = (if decide (body = "None") then None else Some body,
     Some (Re.upto_end post)).
Proof.
  intros Hopen Hclose Hlast. unfold parse_code.
  by rewrite search_fenced.
Qed.

(** C3, as the claim states it, fails: with the body [None] the
    explanation after the closing fence is still returned. *)
Lemma C3_sentinel_keeps_explanation_cex :
  Str.find fence_open "```pythonNone```hello" = Some 0%nat ∧
  parse_code "```pythonNone```hello" = (None, Some "hello") ∧
  parse_code "```pythonNone```hello" ≠ (None, None).
Proof. vm_compute. by repeat split. Qed.

(** C3 (amended): when the first python-tagged fence of the raw text has
    the body [None], [parse_code] returns no code, and as explanation the
    text captured after the closing fence (all the text after it, without
    a line feed that ends the string). *)
Theorem C3_sentinel (pre post : string) :
  Str.find fence_open (pre +:+ fence_open +:+ "None" +:+ fence_close +:+ post)
    = Some (String.length pre) →
  parse_code (pre +:+ fence_open +:+ "None" +:+ fence_close +:+ post)
  = (None, Some (Re.upto_end post)).
Proof.
  intros Hopen. by rewrite parse_code_fenced_eq.
Qed.

Lemma C3_sentinel_witness :
  parse_code ("Sorry. " +:+ fence_open +:+ "None" +:+ fence_close +:+ " I cannot.")
  = (None, Some (Re.upto_end " I cannot.")).
Proof. apply (C3_sentinel "Sorry. " " I cannot."). vm_compute. reflexivity. Defined.

(** C5, as the claim states it, fails for a code string that does not
    contain the closing fence, in three ways: the code [None] is turned
    into no code; a code that ends with a backtick loses it to the
    closing fence; an explanation that ends with a line feed loses it. *)
Lemma C5_round_trip_cex :
  (Str.find fence_close "None" = None ∧
   parse_code (fence_open +:+ "None" +:+ fence_close +:+ "ok")
     ≠ (Some "None", Some "ok")) ∧
  (Str.find fence_close "x`" = None ∧
   parse_code (fence_open +:+ "x`" +:+ fence_close +:+ "ok")
     ≠ (Some "x`", Some "ok")) ∧
  (Str.find fence_close "x" = None ∧
   parse_code (fence_open +:+ "x" +:+ fence_close +:+ ("ok" +:+ Str.nl))
     ≠ (Some "x", Some ("ok" +:+ Str.nl))).
Proof. vm_compute. by repeat split. Qed.

(** C5 (amended): for a code string [C] that does not contain the closing
    fence, does not end with a backtick and is not the text [None], and
    an explanation [E] that does not end with a line feed, parsing the
    text made of the opening fence, [C], the closing fence and [E]
    returns exactly [(C, E)]. *)
Theorem C5_round_trip (C E : string) :
  Str.find fence_close C = None →
  Str.last_char C ≠ Some Str.backtick →
  C ≠ "None" →
  Str.last_char E ≠ Some Str.lf →
  parse_code (fence_open +:+ C +:+ fence_close +:+ E) = (Some C, Some E).
Proof.
  intros Hclose Hlast Hnone HE.
  pose proof (parse_code_fenced_eq "" C E) as H.
  change ("" +:+ ?x) with x in H.
  rewrite H; [|apply find_app_here|done..].
  by rewrite decide_False, upto_end_no_lf.
Qed.

Lemma C5_round_trip_witness :
  parse_code (fence_open +:+ "import streamlit as st" +:+ fence_close
              +:+ " This imports the library.")
  = (Some "import streamlit as st", Some " This imports the library.").
Proof.
  apply (C5_round_trip "import streamlit as st" " This imports the library.");
    vm_compute; congruence.
Defined.

(** ** The budgeter *)

Lemma py_index_nat {A} (l : list A) (n : nat) (x : A) :
  l !! n = Some x → py_index l (Z.of_nat n) = Ok x.
Proof.
  intros Hx. pose proof (lookup_lt_Some _ _ _ Hx) as Hlt.
  unfold py_index.
  rewrite (proj2 (Z.ltb_ge _ _)), (proj2 (Z.leb_le _ _)),
    (proj2 (Z.ltb_lt _ _)) by lia.
  by rewrite Nat2Z.id, Hx.
Qed.

Lemma py_slice_to_nat {A} (l : list A) (n : nat) :
  py_slice_to l (Z.of_nat n) = take n l.
Proof.
  unfold py_slice_to. rewrite (proj2 (Z.ltb_ge _ _)) by lia.
  by rewrite Nat2Z.id.
Qed.

Lemma py_slice_to_prefix {A} (l : list A) (n : Z) : py_slice_to l n `prefix_of` l.
Proof. unfold py_slice_to. destruct (n <? 0); apply prefix_take. Qed.

Lemma py_sum_app (l k : list Z) : py_sum (l ++ k) = py_sum l + py_sum k.
Proof. induction l as [|x l IH]; simpl; [done|]. rewrite IH. lia. Qed.

Lemma py_sum_take_S (l : list Z) (n : nat) (x : Z) :
  l !! n = Some x → py_sum (take (S n) l) = py_sum (take n l) + x.
Proof.
  intros Hx. rewrite (take_S_r _ _ _ Hx), py_sum_app. simpl. lia.
Qed.

(** With a limit that is not negative, the loop stops with a count
    between 0 and the number of documents, within [n] iterations. *)
Lemma reduce_loop_keep_count (limit : Z) (tokens : list Z) (n fuel : nat) :
  0 ≤ limit → (n ≤ length tokens)%nat → (n ≤ fuel)%nat →
  reduce_loop fuel limit tokens (Z.of_nat n) (py_sum (take n tokens))
  = Ok (Z.of_nat (keep_count limit tokens n)).
Proof.
  intros Hlimit. revert fuel. induction n as [|n IH]; intros fuel Hn Hfuel.
  - rewrite take_0. cbn [keep_count py_sum foldr].
    destruct fuel; cbn [reduce_loop]; by rewrite (proj2 (Z.ltb_ge _ _)) by lia.
  - destruct fuel as [|fuel]; [lia|].
    cbn [reduce_loop keep_count].
    destruct (limit <? py_sum (take (S n) tokens)) eqn:Hover; [|done].
    destruct (lookup_lt_is_Some_2 tokens n ltac:(lia)) as [x Hx].
    replace (Z.of_nat (S n) - 1) with (Z.of_nat n) by lia.
    rewrite (py_index_nat _ _ _ Hx). cbn [mbind result_bind].
    rewrite (py_sum_take_S _ _ _ Hx).
    replace (py_sum (take n tokens) + x - x) with (py_sum (take n tokens)) by lia.
    apply IH; lia.
Qed.

Lemma keep_count_le (limit : Z) (tokens : list Z) (n : nat) :
  (keep_count limit tokens n ≤ n)%nat.
Proof. induction n as [|n IH]; simpl; [done|]. case_match; lia. Qed.

Lemma keep_count_within (limit : Z) (tokens : list Z) (n : nat) :
  0 ≤ limit → py_sum (take (keep_count limit tokens n) tokens) ≤ limit.
Proof.
  intros Hlimit. induction n as [|n IH]; cbn [keep_count].
  - by rewrite take_0.
  - destruct (limit <? _) eqn:Hover; [done|]. lia.
Qed.

(** Once the total is within the limit, nothing more is dropped. *)
Lemma keep_count_fixed (limit : Z) (tokens : list Z) (n : nat) :
  py_sum (take n tokens) ≤ limit → keep_count limit tokens n = n.
Proof.
  intros H. destruct n as [|n]; cbn [keep_count]; [done|].
  by rewrite (proj2 (Z.ltb_ge _ _)) by lia.
Qed.

Lemma spec_drop_tail_keep_count (cost : Document → Z) (limit : Z) (n : nat)
    (docs : list Document) :
  spec_drop_tail cost limit n docs
  = take (keep_count limit (cost <$> docs) n) docs.
Proof.
  induction n as [|n IH]; cbn [spec_drop_tail keep_count]; [done|].
  rewrite fmap_take. by case_match.
Qed.

(** The loop never runs out of fuel. *)
Lemma reduce_loop_fuel (limit : Z) (tokens : list Z) (fuel : nat)
    (num_docs token_count : Z) :
  - Z.of_nat (length tokens) ≤ num_docs →
  num_docs + Z.of_nat (length tokens) < Z.of_nat fuel →
  reduce_loop fuel limit tokens num_docs token_count ≠ Raise Diverged.
Proof.
  revert num_docs token_count.
  induction fuel as [|fuel IH]; intros n c Hlo Hfuel; [lia|].
  cbn [reduce_loop]. destruct (limit <? c); [|done].
  destruct (py_index tokens (n - 1)) as [t|e] eqn:Hidx; cbn [mbind result_bind].
  - apply IH; [|lia].
    unfold py_index in Hidx. repeat case_match; simplify_eq; lia.
  - unfold py_index in Hidx. by repeat case_match; simplify_eq.
Qed.

Lemma reduce_unlimited (self : Chain) (docs : list Document) :
  truthy (max_tokens_limit self) && combine_docs_chain_is_stuff self = false →
  _reduce_tokens_below_limit self docs = Ok docs.
Proof.
  intros H. unfold _reduce_tokens_below_limit. rewrite H.
  cbn [mbind result_bind]. by rewrite py_slice_to_nat, firstn_all.
Qed.

Lemma reduce_limited (self : Chain) (docs : list Document) (limit : Z) :
  max_tokens_limit self = Some limit → 0 < limit →
  combine_docs_chain_is_stuff self = true →
  _reduce_tokens_below_limit self docs
  = Ok (take (keep_count limit
                ((λ d, get_num_tokens self (page_content d)) <$> docs)
                (length docs)) docs).
Proof.
  intros Hl Hpos Hstuff. unfold _reduce_tokens_below_limit.
  rewrite Hl, Hstuff. cbn [truthy default].
  rewrite bool_decide_true by lia. cbn [andb].
  set (tokens := _ <$> docs).
  assert (length docs = length tokens) as ->
    by (unfold tokens; by rewrite length_fmap).
  rewrite py_slice_to_nat. unfold id.
  rewrite reduce_loop_keep_count; [|lia|done|lia].
  cbn [mbind result_bind]. by rewrite py_slice_to_nat.
Qed.

Lemma reduce_prefix (self : Chain) (docs out : list Document) :
  _reduce_tokens_below_limit self docs = Ok out → out `prefix_of` docs.
Proof.
  unfold _reduce_tokens_below_limit. intros H.
  destruct (if _ : bool then _ else _) as [n|e]; cbn [mbind result_bind] in H;
    simplify_eq. apply py_slice_to_prefix.
Qed.

(** The budgeter always returns or raises: its loop ends within the
    fuel it is given. *)
Lemma reduce_terminates (self : Chain) (docs : list Document) :
  _reduce_tokens_below_limit self docs ≠ Raise Diverged.
Proof.
  unfold _reduce_tokens_below_limit.
  destruct (truthy _ && _); cbn [mbind result_bind]; [|done].
  match goal with
  | |- context [reduce_loop ?f ?l ?t ?n ?c] =>
      pose proof (reduce_loop_fuel l t f n c) as H;
      destruct (reduce_loop f l t n c) as [k|e]
  end; cbn [mbind result_bind]; [done|].
  intros [= ->]. apply H; [| |done]; rewrite length_fmap; lia.
Qed.

Example reduce_scenario_C :
  _reduce_tokens_below_limit (budget_chain (Some 100) 40)
    [doc "a"; doc "b"; doc "c"]
  = Ok [doc "a"; doc "b"].
Proof. vm_compute. reflexivity. Qed.

Example reduce_first_too_large :
  _reduce_tokens_below_limit (budget_chain (Some 30) 40) [doc "a"; doc "b"]
  = Ok [].
Proof. vm_compute. reflexivity. Qed.

(** C4, as the claim states it, fails: a limit of 0 is a configured limit
    that every document with a positive cost exceeds, so that dropping
    from the tail leaves no document; the code takes 0 for no limit and
    returns the documents unchanged. *)
Lemma C4_zero_limit_cex :
  let self := budget_chain (Some 0) 40 in
  _reduce_tokens_below_limit self [doc "a"] = Ok [doc "a"] ∧
  spec_reduce (doc_cost self) (combine_docs_chain_is_stuff self)
    (max_tokens_limit self) [doc "a"] = [] ∧
  _reduce_tokens_below_limit self [doc "a"]
  ≠ Ok (spec_reduce (doc_cost self) (combine_docs_chain_is_stuff self)
          (max_tokens_limit self) [doc "a"]).
Proof. vm_compute. by repeat split. Qed.

(** C4 (amended): the budgeter returns the documents unchanged when no
    limit is configured, when the limit is 0, or when the combine chain
    is not the stuff chain; with a positive limit and the stuff chain it
    returns what dropping documents from the tail, one at a time, while
    the total cost exceeds the limit, leaves; it never fails to terminate,
    and whatever it returns is a prefix of its input; with the limit 100
    and three documents that cost 40 tokens each it returns the first
    two. *)
Theorem C4_reduce (self : Chain) (docs : list Document) :
  (max_tokens_limit self = None ∨ max_tokens_limit self = Some 0 ∨
   combine_docs_chain_is_stuff self = false →
   _reduce_tokens_below_limit self docs = Ok docs) ∧
  (∀ limit, max_tokens_limit self = Some limit → 0 < limit →
     combine_docs_chain_is_stuff self = true →
     _reduce_tokens_below_limit self docs
     = Ok (spec_reduce (doc_cost self) true (Some limit) docs)) ∧
  _reduce_tokens_below_limit self docs ≠ Raise Diverged ∧
  (∀ out, _reduce_tokens_below_limit self docs = Ok out →
     out `prefix_of` docs) ∧
  (∀ d1 d2 d3, docs = [d1; d2; d3] →
     doc_cost self d1 = 40 → doc_cost self d2 = 40 → doc_cost self d3 = 40 →
     max_tokens_limit self = Some 100 →
     combine_docs_chain_is_stuff self = true →
     _reduce_tokens_below_limit self docs = Ok [d1; d2]).
Proof.
  split_and!.
  - intros H. apply reduce_unlimited.
    destruct H as [-> | [-> | ->]]; [done|done|apply andb_false_r].
  - intros limit Hl Hpos Hstuff. rewrite (reduce_limited _ _ _ Hl Hpos Hstuff).
    cbn [spec_reduce]. by rewrite spec_drop_tail_keep_count.
  - apply reduce_terminates.
  - apply reduce_prefix.
  - intros d1 d2 d3 -> H1 H2 H3 Hl Hstuff.
    rewrite (reduce_limited _ _ _ Hl ltac:(lia) Hstuff).
    unfold doc_cost in H1, H2, H3.
    cbn [fmap list_fmap length keep_count]. rewrite H1, H2, H3. reflexivity.
Qed.

Lemma C4_reduce_witness :
  _reduce_tokens_below_limit (budget_chain (Some 100) 40)
    [doc "a"; doc "b"; doc "c"]
  = Ok [doc "a"; doc "b"].
Proof.
  destruct (C4_reduce (budget_chain (Some 100) 40) [doc "a"; doc "b"; doc "c"])
    as (_ & _ & _ & _ & H).
  apply (H (doc "a") (doc "b") (doc "c")); reflexivity.
Defined.

(** C6, as the claim states it, fails for a negative limit: the first
    pass leaves one document, and the second pass raises on it. *)
Lemma C6_negative_limit_cex :
  let self := budget_chain (Some (-50)) 40 in
  let docs := [doc "a"; doc "b"; doc "c"] in
  _reduce_tokens_below_limit self docs = Ok [doc "a"] ∧
  _reduce_tokens_below_limit self [doc "a"] = Raise IndexError ∧
  (_reduce_tokens_below_limit self docs ≫= _reduce_tokens_below_limit self)
  ≠ _reduce_tokens_below_limit self docs.
Proof. vm_compute. by repeat split. Qed.

(** C6 (amended): for every document sequence, and every limit that is
    unset or not negative, the budgeter returns, and applied to its own
    result it returns that result again. *)
Theorem C6_reduce_idempotent (self : Chain) (docs : list Document) :
  (∀ limit, max_tokens_limit self = Some limit → 0 ≤ limit) →
  ∃ out, _reduce_tokens_below_limit self docs = Ok out ∧
         _reduce_tokens_below_limit self out = Ok out.
Proof.
  intros Hlimit.
  destruct (truthy (max_tokens_limit self) && combine_docs_chain_is_stuff self)
    eqn:Hon.
  - apply andb_true_iff in Hon as [Ht Hstuff].
    destruct (max_tokens_limit self) as [limit|] eqn:Hl; [|done].
    cbn [truthy] in Ht. apply bool_decide_eq_true in Ht.
    assert (0 < limit) as Hpos by (specialize (Hlimit limit eq_refl); lia).
    eexists. split; [by apply reduce_limited|].
    rewrite (reduce_limited _ _ _ Hl Hpos Hstuff). f_equal.
    set (tokens := _ <$> docs).
    set (k := keep_count limit tokens (length docs)).
    assert (k ≤ length docs)%nat as Hk by apply keep_count_le.
    rewrite fmap_take, length_take, Nat.min_l by done. fold tokens.
    rewrite keep_count_fixed.
    + by rewrite take_take, Nat.min_id.
    + rewrite take_take, Nat.min_id. apply keep_count_within. lia.
  - exists docs. split; by apply reduce_unlimited.
Qed.

Lemma C6_reduce_idempotent_witness :
  ∃ out,
    _reduce_tokens_below_limit (budget_chain (Some 100) 40)
      [doc "a"; doc "b"; doc "c"] = Ok out ∧
    _reduce_tokens_below_limit (budget_chain (Some 100) 40) out = Ok out.
Proof.
  apply (C6_reduce_idempotent (budget_chain (Some 100) 40)
           [doc "a"; doc "b"; doc "c"]).
  simpl. intros limit [= <-]. lia.
Defined.

(** ** The entry points *)

Lemma call_pipeline gch self inputs :
  _call gch self inputs = pipeline Blocking gch self inputs.
Proof. reflexivity. Qed.

Lemma acall_pipeline gch self inputs :
  _acall gch self inputs = pipeline Suspendable gch self inputs.
Proof. reflexivity. Qed.

Lemma entry_point_pipeline gch self inputs run :
  _call gch self inputs = run ∨ _acall gch self inputs = run →
  ∃ m, pipeline m gch self inputs = run.
Proof. intros [<-|<-]; [by exists Blocking|by exists Suspendable]. Qed.

Lemma critic_step_inv self code r tr :
  critic_step self code = (r, tr) →
  match code with
  | None => r = Ok (PBool true) ∧ tr = []
  | Some c =>
      tr = [Critique c (constitutional_chain_run self c)] ∧
      r = PStr <$> constitutional_chain_run self c
  end.
Proof.
  unfold critic_step, call, mbind, M_bind, mret, M_ret.
  destruct code as [c|]; [|by intros [= <- <-]].
  destruct (constitutional_chain_run self c); by intros [= <- <-].
Qed.

Lemma assemble_inv self code expl docs q verdict r tr :
  assemble self code expl docs q verdict = (r, tr) →
  tr = [] ∧
  ∀ out, r = Ok out →
    (return_revision_request self = true →
       out !! "revision_request" = Some verdict) ∧
    (return_generated_question self = true →
       out !! "generated_question" = Some (PStr q)).
Proof.
  unfold assemble, lift, mbind, M_bind, mret, M_ret. intros H.
  repeat case_match; simplify_eq/=; split; try done.
  all: intros out [= <-]; split; intros; simplify_eq; by simplify_map_eq.
Qed.

Ltac pipeline_inv H :=
  unfold pipeline, condense, fetch, synthesize, call, lift in H;
  unfold mbind, M_bind in H;
  repeat case_match; simplify_eq/=;
  repeat match goal with
    | H : critic_step _ _ = _ |- _ => apply critic_step_inv in H
    | H : assemble _ _ _ _ _ _ = _ |- _ => apply assemble_inv in H as [-> H]
    end.

Ltac elem_inv H :=
  repeat first
    [ apply elem_of_nil in H; destruct H
    | apply elem_of_cons in H as [H|H]; [simplify_eq|] ].

Lemma pipeline_no_code m gch self inputs r tr :
  pipeline m gch self inputs = (r, tr) →
  ∀ m' docs kw ans, Synthesize m' docs kw (Ok ans) ∈ tr →
  (parse_code ans).1 = None →
  (∀ c resp, Critique c resp ∉ tr) ∧
  (∀ out, r = Ok out → return_revision_request self = true →
     out !! "revision_request" = Some (PBool true)).
Proof.
  intros H m' docs kw ans Hin Hparse.
  pipeline_inv H.
  all: try (by elem_inv Hin).
  all: rewrite ?app_nil_r in *.
  all: assert (o = None) as ->
    by (destruct o; [|done];
        (destruct H16 as [-> _] || destruct H as [-> _]);
        elem_inv Hin; by rewrite H15 in Hparse).
  all: match goal with H : _ ∧ _ |- _ => destruct H as [? ?] end;
    simplify_eq/=.
  all: split; [intros c resp Hc; by elem_inv Hc|].
  all: intros out ? ?; simplify_eq. by apply H18.
Qed.

(** C2: when the text returned by the synthesizer parses to no code, the
    critic is not called and the verdict put in the output is the default
    [True] (unsafe); this holds for [_call] and for [_acall]. *)
Theorem C2_no_code_fail_closed gch self inputs r tr :
  _call gch self inputs = (r, tr) ∨ _acall gch self inputs = (r, tr) →
  ∀ m docs kwargs answer,
    Synthesize m docs kwargs (Ok answer) ∈ tr →
    (parse_code answer).1 = None →
    critic_skipped self (r, tr).
Proof.
  intros Hrun m docs kw ans Hin Hparse.
  apply entry_point_pipeline in Hrun as [m' Hrun].
  by eapply pipeline_no_code.
Qed.

Lemma C2_no_code_fail_closed_witness :
  critic_skipped (demo_chain "I cannot write that.")
    (_call demo_get_chat_history (demo_chain "I cannot write that.")
       (demo_inputs "build me a todo list app")).
Proof.
  eapply (C2_no_code_fail_closed demo_get_chat_history
            (demo_chain "I cannot write that.")
            (demo_inputs "build me a todo list app") _ _ (or_introl eq_refl)
            Blocking).
  - apply (list_elem_of_lookup_2 _ 2). vm_compute. reflexivity.
  - vm_compute. reflexivity.
Defined.

Lemma pipeline_code m gch self inputs r tr :
  pipeline m gch self inputs = (r, tr) →
  ∀ m' docs kw ans c, Synthesize m' docs kw (Ok ans) ∈ tr →
  (parse_code ans).1 = Some c →
  Critique c (constitutional_chain_run self c) ∈ tr ∧
  (∀ out, r = Ok out → return_revision_request self = true →
     ∃ verdict, constitutional_chain_run self c = Ok verdict ∧
       out !! "revision_request" = Some (PStr verdict)).
Proof.
  intros H m' docs kw ans c Hin Hparse.
  pipeline_inv H.
  all: try (by elem_inv Hin).
  all: rewrite ?app_nil_r in *.
  all: assert (o = Some c) as ->
    by (destruct o;
        [(destruct H16 as [-> _] || destruct H as [-> _])
        |(destruct H16 as [_ ->] || destruct H as [_ ->])];
        elem_inv Hin; by rewrite H15 in Hparse).
  all: match goal with H : _ ∧ _ |- _ => destruct H as [? ?] end;
    simplify_eq/=.
  all: split; [rewrite !elem_of_cons; auto 10|].
  all: intros out ? ?; simplify_eq.
  destruct (constitutional_chain_run self c) as [v|]; [|done].
  exists v. split; [done|]. simplify_eq/=. by apply H18.
Qed.

(** C9, as the claim states it, fails: an empty code body is the empty
    string, not [None], and the critic is called on it. *)
Lemma C9_empty_code_cex :
  let self := demo_chain "```python```" in
  let run := _call demo_get_chat_history self
               (demo_inputs "build me a todo list app") in
  parse_code "```python```" = (Some "", Some "") ∧
  Critique "" (Ok "False") ∈ run.2 ∧
  ¬ critic_skipped self run.
Proof.
  split; [vm_compute; reflexivity|].
  assert (Critique "" (Ok "False")
          ∈ (_call demo_get_chat_history (demo_chain "```python```")
               (demo_inputs "build me a todo list app")).2) as Hin.
  { apply (list_elem_of_lookup_2 _ 3). vm_compute. reflexivity. }
  split; [done|]. intros [Hno _]. by apply (Hno _ _ Hin).
Qed.

(** C9 (amended): the critic is called exactly when the extracted code is
    not [None].  When the parser extracts a code string, the empty string
    of an empty fence included, the critic is called on it, and the
    verdict put in the output is the critic's response; this holds for
    [_call] and for [_acall]. *)
Theorem C9_code_is_critiqued gch self inputs r tr :
  _call gch self inputs = (r, tr) ∨ _acall gch self inputs = (r, tr) →
  ∀ m docs kwargs answer code,
    Synthesize m docs kwargs (Ok answer) ∈ tr →
    (parse_code answer).1 = Some code →
    Critique code (constitutional_chain_run self code) ∈ tr ∧
    (∀ out, r = Ok out → return_revision_request self = true →
       ∃ verdict, constitutional_chain_run self code = Ok verdict ∧
         out !! "revision_request" = Some (PStr verdict)) ∧
    (∀ post, (parse_code (fence_open +:+ fence_close +:+ post)).1 = Some "").
Proof.
  intros Hrun m docs kw ans c Hin Hparse.
  apply entry_point_pipeline in Hrun as [m' Hrun].
  destruct (pipeline_code _ _ _ _ _ _ Hrun _ _ _ _ _ Hin Hparse) as [H1 H2].
  split_and!; [done..|]. intros post.
  change (fence_open +:+ fence_close +:+ post)
    with ("" +:+ fence_open +:+ "" +:+ fence_close +:+ post).
  rewrite parse_code_fenced_eq; [done| |done..].
  exact (find_app_here fence_open _).
Qed.

Lemma C9_code_is_critiqued_witness :
  Critique "" (Ok "False")
  ∈ (_call demo_get_chat_history (demo_chain "```python```")
       (demo_inputs "build me a todo list app")).2.
Proof.
  eapply (C9_code_is_critiqued demo_get_chat_history
            (demo_chain "```python```")
            (demo_inputs "build me a todo list app") _ _ (or_introl eq_refl)
            Blocking _ _ _ "").
  - apply (list_elem_of_lookup_2 _ 2). vm_compute. reflexivity.
  - vm_compute. reflexivity.
Defined.

Lemma pipeline_question m gch self inputs r tr :
  pipeline m gch self inputs = (r, tr) →
  (∀ m' docs kw resp, Synthesize m' docs kw resp ∈ tr →
     kw !! "question" = inputs !! "question" ∧
     ∃ h, kw = <["chat_history" := PStr h]> inputs) ∧
  (∀ m' q resp, Retrieve m' q resp ∈ tr →
     ∃ request, Condense m' request (Ok q) ∈ tr) ∧
  (∀ out, r = Ok out → return_generated_question self = true →
     ∃ m' request q, Condense m' request (Ok q) ∈ tr ∧
       out !! "generated_question" = Some (PStr (sanitize q))).
Proof.
  intros H. pipeline_inv H.
  all: rewrite ?app_nil_r in *.
  all: repeat match goal with
         | H : match ?o with Some _ => _ | None => _ end |- _ => destruct o
         | H : _ ∧ _ |- _ => destruct H as [? ?]
         end; simplify_eq/=.
  all: split_and!.
  all: try (intros m' docs kw resp Hin; elem_inv Hin;
            (split; [by apply lookup_insert_ne|by eexists])).
  all: try (intros m' q resp Hin; elem_inv Hin;
            (eexists; rewrite !elem_of_cons; by auto 10)).
  all: try (intros out ? ?; by simplify_eq).
  all: intros out -> Hflag; do 3 eexists; split;
    [rewrite !elem_of_cons; auto 10|];
    match goal with H : ∀ out, _ |- _ => by apply H end.
Qed.

(** C1, as the claim states it, fails: the condenser turns the question
    into "Write a streamlit todo list app", and the synthesizer is handed
    the question of the caller. *)
Lemma C1_synthesizer_question_cex :
  let run := _call demo_get_chat_history (demo_chain "I cannot write that.")
               (demo_inputs "build me a todo list app") in
  run.2 !! 0%nat
    = Some (Condense Blocking (PStr "build me a todo list app")
              (Ok "Write a streamlit todo list app")) ∧
  ¬ synthesizer_gets_condensed_query run.2.
Proof.
  split; [vm_compute; reflexivity|]. intros H.
  edestruct (H Blocking) as (m' & request & q & Hc & Hq).
  { apply (list_elem_of_lookup_2 _ 2). vm_compute. reflexivity. }
  vm_compute in Hc, Hq. by elem_inv Hc.
Qed.

(** C1 (amended): in every run of [_call] and of [_acall], the question
    handed to the synthesizer is the question of the caller
    ([inputs["question"]]), unchanged: the keyword arguments of the
    synthesizer are the inputs with the chat history replaced by its
    text.  The condensed query, as the condenser returned it, is the
    query of the retrieval, and its sanitized form appears only as the
    [generated_question] of the output. *)
Theorem C1_synthesizer_question gch self inputs r tr :
  _call gch self inputs = (r, tr) ∨ _acall gch self inputs = (r, tr) →
  (∀ m docs kwargs resp, Synthesize m docs kwargs resp ∈ tr →
     kwargs !! "question" = inputs !! "question" ∧
     ∃ h, kwargs = <["chat_history" := PStr h]> inputs) ∧
  (∀ m q resp, Retrieve m q resp ∈ tr →
     ∃ request, Condense m request (Ok q) ∈ tr) ∧
  (∀ out, r = Ok out → return_generated_question self = true →
     ∃ m request q, Condense m request (Ok q) ∈ tr ∧
       out !! "generated_question" = Some (PStr (sanitize q))).
Proof.
  intros Hrun. apply entry_point_pipeline in Hrun as [m' Hrun].
  by eapply pipeline_question.
Qed.

Lemma C1_synthesizer_question_witness :
  (<["chat_history" := PStr ""]> (demo_inputs "build me a todo list app")
     : gmap string pyval) !! "question"
  = Some (PStr "build me a todo list app").
Proof.
  destruct (C1_synthesizer_question demo_get_chat_history
              (demo_chain "I cannot write that.")
              (demo_inputs "build me a todo list app") _ _
              (or_introl eq_refl)) as (H & _ & _).
  refine (proj1 (H Blocking demo_docs _ (Ok "I cannot write that.") _)).
  apply (list_elem_of_lookup_2 _ 2). vm_compute. reflexivity.
Defined.

Lemma bind_lift_Ok {A B} (a : A) (f : A → M B) : lift (Ok a) ≫= f = f a.
Proof. unfold lift, mbind, M_bind. by destruct (f a). Qed.

Lemma bind_call_first {A B} (e : event) (r : result A) (f : A → M B) :
  ∃ r' tr, call e r ≫= f = (r', e :: tr).
Proof.
  unfold call, mbind, M_bind. destruct r as [a|]; [|by do 2 eexists].
  destruct (f a). by do 2 eexists.
Qed.

Lemma pipeline_first_call m gch self inputs request :
  inputs !! "question" = Some request →
  ∃ r tr, pipeline m gch self inputs
          = (r, Condense m request (condense_resp m self request) :: tr).
Proof.
  intros Hq. unfold pipeline, dict_get. rewrite Hq, bind_lift_Ok.
  apply bind_call_first.
Qed.

(** C8, as the claim states it, fails: an empty question is not
    rejected; the condenser is called with it and the run returns. *)
Lemma C8_empty_question_cex :
  let run := _call demo_get_chat_history (demo_chain "I cannot write that.")
               (demo_inputs "") in
  run.2 !! 0%nat
    = Some (Condense Blocking (PStr "") (Ok "Write a streamlit todo list app")) ∧
  ¬ rejected_without_calls run.
Proof.
  split; [vm_compute; reflexivity|]. intros [e He].
  apply (f_equal snd) in He. vm_compute in He. discriminate.
Qed.

(** C8 (amended): when the inputs have no question, [_call] and [_acall]
    raise a [KeyError] at once, before any service is called.  A question
    that is present, the empty string included, is not checked: the first
    step calls the condenser with it. *)
Theorem C8_missing_question gch self inputs :
  (inputs !! "question" = None →
   _call gch self inputs = (Raise (KeyError "question"), []) ∧
   _acall gch self inputs = (Raise (KeyError "question"), [])) ∧
  (∀ request, inputs !! "question" = Some request →
   (∃ r tr, _call gch self inputs
      = (r, Condense Blocking request (question_generator_run self request)
            :: tr)) ∧
   (∃ r tr, _acall gch self inputs
      = (r, Condense Suspendable request (question_generator_arun self request)
            :: tr))).
Proof.
  split.
  - intros Hq. unfold _call, _acall, lift, dict_get, mbind, M_bind.
    by rewrite Hq.
  - intros request Hq. split.
    + apply (pipeline_first_call Blocking _ _ _ _ Hq).
    + apply (pipeline_first_call Suspendable _ _ _ _ Hq).
Qed.

Lemma C8_missing_question_witness :
  _call demo_get_chat_history (demo_chain "I cannot write that.")
    {[ "chat_history" := PTurns [] ]}
  = (Raise (KeyError "question"), []).
Proof.
  destruct (C8_missing_question demo_get_chat_history
              (demo_chain "I cannot write that.")
              {[ "chat_history" := PTurns [] ]}) as [H _].
  apply H. vm_compute. reflexivity.
Defined.

(** Two computations with the same result, continued by functions that
    give the same results, have the same result. *)
Lemma bind_result_congr {A B} (m1 m2 : M A) (f1 f2 : A → M B) :
  m1.1 = m2.1 → (∀ a, (f1 a).1 = (f2 a).1) → (m1 ≫= f1).1 = (m2 ≫= f2).1.
Proof.
  destruct m1 as [[a1|e1] t1], m2 as [[a2|e2] t2]; intros [=] Hf; subst;
    unfold mbind, M_bind; try done.
  specialize (Hf a2). by destruct (f1 a2), (f2 a2).
Qed.

Lemma pipeline_result_mode gch self inputs :
  (∀ request, question_generator_arun self request
              = question_generator_run self request) →
  (∀ question, retriever_aget_relevant_documents self question
               = retriever_get_relevant_documents self question) →
  (∀ docs kwargs, combine_docs_chain_arun self docs kwargs
                  = combine_docs_chain_run self docs kwargs) →
  (pipeline Suspendable gch self inputs).1
  = (pipeline Blocking gch self inputs).1.
Proof.
  intros Hcondense Hretrieve Hsynth. unfold pipeline.
  apply bind_result_congr; [done|intros request].
  apply bind_result_congr; [apply Hcondense|intros new_request].
  apply bind_result_congr;
    [apply bind_result_congr; [apply Hretrieve|done]|intros docs].
  apply bind_result_congr; [done|intros history].
  apply bind_result_congr; [done|intros chat_history_str].
  apply bind_result_congr; [done|intros _].
  apply bind_result_congr; [apply Hsynth|intros answer].
  by destruct (parse_code answer).
Qed.

(** C7: when each suspendable service responds as its blocking
    counterpart, [_acall] returns the output dictionary that [_call]
    returns, or raises the exception that [_call] raises. *)
Theorem C7_entry_points_agree gch self inputs :
  (∀ request, question_generator_arun self request
              = question_generator_run self request) →
  (∀ question, retriever_aget_relevant_documents self question
               = retriever_get_relevant_documents self question) →
  (∀ docs kwargs, combine_docs_chain_arun self docs kwargs
                  = combine_docs_chain_run self docs kwargs) →
  (_acall gch self inputs).1 = (_call gch self inputs).1.
Proof. apply pipeline_result_mode. Qed.

Lemma C7_entry_points_agree_witness :
  (_acall demo_get_chat_history (demo_chain "```pythonst.title('Todo')``` Done.")
     (demo_inputs "build me a todo list app")).1
  = (_call demo_get_chat_history (demo_chain "```pythonst.title('Todo')``` Done.")
       (demo_inputs "build me a todo list app")).1.
Proof.
  apply (C7_entry_points_agree demo_get_chat_history
           (demo_chain "```pythonst.title('Todo')``` Done.")
           (demo_inputs "build me a todo list app")); reflexivity.
Defined.

Example call_scenario_A :
  let run := _call demo_get_chat_history
               (demo_chain "```pythonst.title('Todo')``` Done.")
               (demo_inputs "build me a todo list app") in
  (map_to_list <$> run.1)
  = Ok [("generated_question", PStr "Write a  todo list app");
        ("code", PStr "st.title('Todo')");
        ("explanation", PStr " Done.");
        ("revision_request", PStr "False")] ∧
  length run.2 = 4%nat.
Proof. vm_compute. done. Qed.

(** ** [save] *)

(** C10: with a custom chat-history formatter, [save] raises a
    [ValueError] and the files are as they were; so a [save] that
    succeeds is one of a chain with no custom formatter, and it is the
    [save] of the base class. *)
Theorem C10_save Chain_save self file_path fs :
  (∀ formatter, get_chat_history self = Some formatter →
     ∃ msg, save Chain_save self file_path fs = (Raise (ValueError msg), fs)) ∧
  (∀ fs', save Chain_save self file_path fs = (Ok (), fs') →
     get_chat_history self = None ∧
     Chain_save self file_path fs = (Ok (), fs')).
Proof.
  unfold save. split.
  - intros formatter ->. by eexists.
  - intros fs' H. by destruct (get_chat_history self).
Qed.

Lemma C10_save_witness :
  get_chat_history (demo_chain "") = None ∧
  demo_Chain_save (demo_chain "") "chain.json" ∅
  = (Ok (), {[ "chain.json" := "chain" ]}).
Proof.
  destruct (C10_save demo_Chain_save (demo_chain "") "chain.json" ∅) as [_ H].
  apply H. reflexivity.
Defined.

(** * Further properties of the parser *)

Lemma strip_prefix_Some (p s r : string) :
  Str.strip_prefix p s = Some r → s = p +:+ r.
Proof.
  revert s. induction p as [|a p IH]; intros s H; simpl in H.
  - by inversion H.
  - destruct s as [|b s]; [done|]. case_decide; [|done].
    subst. rewrite app_cons. f_equal. by apply IH.
Qed.

Lemma app_assoc_str (s t u : string) : (s +:+ t) +:+ u = s +:+ t +:+ u.
Proof. induction s as [|c s IH]; [done|]. by rewrite !app_cons, IH. Qed.

(** A literal that matches at the start of [b] matches at the start of
    [b +:+ r]. *)
Lemma strip_prefix_app_None (sub b r : string) :
  Str.strip_prefix sub (b +:+ r) = None → Str.strip_prefix sub b = None.
Proof.
  revert b. induction sub as [|a sub IH]; intros b; simpl.
  - by destruct (b +:+ r).
  - destruct b as [|c b]; [done|]. rewrite app_cons.
    case_decide; [apply IH|done].
Qed.

Lemma find_None_suffixes (sub b r : string) :
  Str.strip_prefix sub "" = None →
  (∀ b1 b2, b = b1 +:+ b2 → b2 ≠ "" → Str.strip_prefix sub (b2 +:+ r) = None) →
  Str.find sub b = None.
Proof.
  intros Hsub. induction b as [|c b IH]; intros Hno.
  - simpl. by rewrite Hsub.
  - cbn [Str.find].
    rewrite (strip_prefix_app_None _ _ r (Hno "" (String c b) eq_refl ltac:(done))).
    rewrite IH; [done|]. intros b1 b2 -> Hne. by apply (Hno (String c b1) b2).
Qed.

Lemma find_None_no_prefix (sub s : string) :
  Str.find sub s = None →
  ∀ s1 s2, s = s1 +:+ s2 → Str.strip_prefix sub s2 = None.
Proof.
  induction s as [|c s IH]; intros Hfind s1 s2 Hs.
  - destruct s1, s2; try done. simpl in Hfind.
    by destruct (Str.strip_prefix sub "").
  - apply find_cons_None in Hfind as [Hp Hfind].
    destruct s1 as [|c1 s1].
    + change ("" +:+ s2) with s2 in Hs. by subst.
    + rewrite app_cons in Hs. injection Hs as -> ->. by eapply IH.
Qed.

Lemma last_char_split (s : string) (c : ascii) :
  Str.last_char s = Some c → ∃ s', s = s' +:+ String c "".
Proof.
  induction s as [|a s IH]; [done|]. destruct s as [|b s].
  - intros [= ->]. by exists "".
  - intros H. destruct (IH H) as [s' Hs']. exists (String a s').
    by rewrite app_cons, <-Hs'.
Qed.

(** What a lazy group captures: the shortest text after which the
    continuation matches. *)
Lemma lazy_any_inv (k : string → option (list string)) (s : string)
    (res : list string) :
  Re.lazy_any k s = Some res →
  ∃ g gs r, res = g :: gs ∧ s = g +:+ r ∧ k r = Some gs ∧
    ∀ g1 g2, g = g1 +:+ g2 → g2 ≠ "" → k (g2 +:+ r) = None.
Proof.
  revert res. induction s as [|c s IH]; intros res; cbn [Re.lazy_any].
  - destruct (k "") as [gs|] eqn:Hk; [|done]. intros [= <-].
    exists "", gs, "". split_and!; try done. intros [] []; done.
  - destruct (k (String c s)) as [gs|] eqn:Hk.
    + intros [= <-]. exists "", gs, (String c s). split_and!; try done.
      intros [] []; done.
    + destruct (Re.lazy_any k s) as [[|g gs]|] eqn:Hl; try done.
      intros [= <-]. destruct (IH _ eq_refl) as (g' & gs' & r & [= <- <-] & -> & Hr & Hmin).
      exists (String c g), gs, r. split_and!; try done.
      intros g1 g2 Hg Hne. destruct g1 as [|c1 g1].
      * change ("" +:+ g2) with g2 in Hg. subst g2. by rewrite app_cons.
      * rewrite app_cons in Hg. injection Hg as -> ->. by apply (Hmin g1 g2).
Qed.

Lemma search_inv (p : list Re.item) (s : string) (gs : list string) :
  Re.search p s = Some gs →
  ∃ pre s', s = pre +:+ s' ∧ Re.match_here p s' = Some gs.
Proof.
  induction s as [|c s IH]; cbn [Re.search].
  - destruct (Re.match_here p "") eqn:Hm; [|done]. intros [= <-].
    by exists "", "".
  - destruct (Re.match_here p (String c s)) eqn:Hm.
    + intros [= <-]. by exists "", (String c s).
    + intros H. destruct (IH H) as (pre & s' & -> & Hs').
      by exists (String c pre), s'.
Qed.

Lemma search_None (p : list Re.item) (s : string) :
  (∀ s1 s2, s = s1 +:+ s2 → Re.match_here p s2 = None) →
  Re.search p s = None.
Proof.
  induction s as [|c s IH]; intros Hno; cbn [Re.search].
  - by rewrite (Hno "" "").
  - rewrite (Hno "" (String c s)) by done. apply IH.
    intros s1 s2 ->. by apply (Hno (String c s1) s2).
Qed.

(** The text after the second group is nothing or one line feed. *)
Lemma upto_end_tail (s : string) :
  ∃ tail, s = Re.upto_end s +:+ tail ∧ (tail = "" ∨ tail = Str.nl).
Proof.
  induction s as [|c s IH]; [exists ""; split; [done|by left]|].
  cbn [Re.upto_end]. destruct (Re.at_end (String c s)) eqn:Hend.
  - exists (String c s). split; [done|]. right.
    cbn [Re.at_end] in Hend. destruct s; [|done].
    apply bool_decide_eq_true in Hend. by subst.
  - destruct IH as (tail & Hs & Htail). exists tail.
    split; [|done]. by rewrite app_cons, <-Hs.
Qed.

Lemma match_here_lit (l : string) (p : list Re.item) (s : string) :
  Re.match_here (Re.Lit l :: p) s
  = match Str.strip_prefix l s with
    | Some s' => Re.match_here p s'
    | None => None
    end.
Proof. reflexivity. Qed.

Lemma match_here_lazy (p : list Re.item) (s : string) :
  Re.match_here (Re.LazyAny :: p) s = Re.lazy_any (Re.match_here p) s.
Proof. reflexivity. Qed.

(** A match of [pattern] at the start of a text. *)
Lemma match_here_pattern_inv (s : string) (gs : list string) :
  Re.match_here pattern s = Some gs →
  ∃ body post,
    gs = [body; Re.upto_end post] ∧
    s = fence_open +:+ body +:+ fence_close +:+ post ∧
    ∀ b1 b2, body = b1 +:+ b2 → b2 ≠ "" →
      Str.strip_prefix fence_close (b2 +:+ fence_close +:+ post) = None.
Proof.
  unfold pattern. rewrite match_here_lit.
  destruct (Str.strip_prefix fence_open s) as [s1|] eqn:Hopen; [|done].
  rewrite match_here_lazy.
  apply strip_prefix_Some in Hopen as ->. intros H.
  apply lazy_any_inv in H as (body & gs1 & r & -> & -> & Hk & Hmin).
  assert (Hk1 : ∀ t, Re.match_here [Re.Lit fence_close; Re.LazyAny; Re.EndAnchor] t
                     = match Str.strip_prefix fence_close t with
                       | Some t' => Some [Re.upto_end t']
                       | None => None
                       end).
  { intros t. rewrite match_here_lit.
    destruct (Str.strip_prefix fence_close t); [|done].
    by rewrite match_here_lazy, lazy_any_end. }
  rewrite Hk1 in Hk.
  destruct (Str.strip_prefix fence_close r) as [post|] eqn:Hclose; [|done].
  apply strip_prefix_Some in Hclose as ->. injection Hk as <-.
  exists body, post. split_and!; try done.
  intros b1 b2 Hb Hne. specialize (Hmin b1 b2 Hb Hne). rewrite Hk1 in Hmin.
  by destruct (Str.strip_prefix fence_close _).
Qed.

Lemma parse_code_inv (output : string) (c e : option string) :
  parse_code output = (c, e) →
  (c = None ∧ e = None ∧ Re.search pattern output = None) ∨
  ∃ pre body post,
    output = pre +:+ fence_open +:+ body +:+ fence_close +:+ post ∧
    c = (if decide (body = "None") then None else Some body) ∧
    e = Some (Re.upto_end post) ∧
    ∀ b1 b2, body = b1 +:+ b2 → b2 ≠ "" →
      Str.strip_prefix fence_close (b2 +:+ fence_close +:+ post) = None.
Proof.
  unfold parse_code. destruct (Re.search pattern output) as [gs|] eqn:Hs.
  - apply search_inv in Hs as (pre & s' & -> & Hm).
    apply match_here_pattern_inv in Hm as (body & post & -> & -> & Hmin).
    intros [= <- <-]. right. by exists pre, body, post.
  - intros [= <- <-]. by left.
Qed.

(** X1: whatever [parse_code] returns as explanation, the raw text is
    some text, the opening fence, a body, the closing fence, the
    explanation, and then nothing or one line feed; the code returned is
    the body, or [None] when the body is the text None. *)
Theorem X1_parse_code_sound (output : string) (c : option string) (e : string) :
  parse_code output = (c, Some e) →
  ∃ pre body tail,
    output = pre +:+ fence_open +:+ body +:+ fence_close +:+ e +:+ tail ∧
    (tail = "" ∨ tail = Str.nl) ∧
    c = (if decide (body = "None") then None else Some body).
Proof.
  intros H. apply parse_code_inv in H as [(_ & [=] & _)|H].
  destruct H as (pre & body & post & -> & -> & [= ->] & _).
  destruct (upto_end_tail post) as (tail & Hpost & Htail).
  exists pre, body, tail. by rewrite <-Hpost.
Qed.

Lemma X1_parse_code_sound_witness :
  ∃ pre body tail,
    "Sure. ```pythonx = 1``` Done."
    = pre +:+ fence_open +:+ body +:+ fence_close +:+ " Done." +:+ tail ∧
    (tail = "" ∨ tail = Str.nl) ∧
    Some "x = 1" = (if decide (body = "None") then None else Some body).
Proof.
  apply (X1_parse_code_sound "Sure. ```pythonx = 1``` Done."
           (Some "x = 1") " Done.").
  vm_compute. reflexivity.
Defined.

(** X2: a code string returned by [parse_code] never contains the
    closing fence, never ends with a backtick and is never the text
    None, and it always comes with an explanation. *)
Theorem X2_parse_code_code_shape (output code : string) (e : option string) :
  parse_code output = (Some code, e) →
  Str.find fence_close code = None ∧
  Str.last_char code ≠ Some Str.backtick ∧
  code ≠ "None" ∧
  is_Some e.
Proof.
  intros H. apply parse_code_inv in H as [([=] & _)|H].
  destruct H as (pre & body & post & -> & Hc & -> & Hmin).
  case_decide; [done|]. injection Hc as ->.
  split_and!; [|  |done|done].
  - by apply (find_None_suffixes _ _ (fence_close +:+ post)).
  - intros Hlast. apply last_char_split in Hlast as [b' ->].
    by specialize (Hmin b' (String Str.backtick "") eq_refl ltac:(done)).
Qed.

Lemma X2_parse_code_code_shape_witness :
  Str.find fence_close "x" = None ∧
  Str.last_char "x" ≠ Some Str.backtick ∧
  "x" ≠ "None" ∧
  is_Some (Some "`Done.").
Proof.
  apply (X2_parse_code_code_shape "```pythonx````Done." "x" (Some "`Done.")).
  vm_compute. reflexivity.
Defined.

Lemma strip_prefix_open_None (s : string) :
  Str.strip_prefix fence_close s = None → Str.strip_prefix fence_open s = None.
Proof.
  unfold fence_close, fence_open.
  destruct s as [|c1 [|c2 [|c3 s]]]; simpl; try done;
    repeat case_decide; done.
Qed.

Lemma search_no_close (s : string) :
  Str.find fence_close s = None → Re.search pattern s = None.
Proof.
  intros Hfind. apply search_None. intros s1 s2 Hs.
  unfold pattern. rewrite match_here_lit, strip_prefix_open_None; [done|].
  by eapply find_None_no_prefix.
Qed.

Lemma lazy_any_None (k : string → option (list string)) (s : string) :
  (∀ s1 s2, s = s1 +:+ s2 → k s2 = None) → Re.lazy_any k s = None.
Proof.
  induction s as [|c s IH]; intros Hno; cbn [Re.lazy_any].
  - by rewrite (Hno "" "").
  - rewrite (Hno "" (String c s)) by done. rewrite IH; [done|].
    intros s1 s2 ->. by apply (Hno (String c s1) s2).
Qed.

(** An opening fence that is not closed does not match. *)
Lemma match_here_unclosed (rest : string) :
  Str.find fence_close rest = None →
  Re.match_here pattern (fence_open +:+ rest) = None.
Proof.
  intros Hfind. unfold pattern.
  rewrite match_here_lit, strip_prefix_app, match_here_lazy.
  apply lazy_any_None. intros s1 s2 Hs.
  by rewrite match_here_lit, (find_None_no_prefix _ _ Hfind s1 s2).
Qed.

Lemma search_unclosed (rest : string) :
  Str.find fence_close rest = None →
  Re.search pattern (fence_open +:+ rest) = None.
Proof.
  intros Hfind. pose proof (match_here_unclosed rest Hfind) as Hm.
  pose proof (search_no_close rest Hfind) as Hs.
  unfold fence_open in *.
  change ("```python" +:+ rest)
    with (String "`" (String "`" (String "`" (String "p" (String "y"
            (String "t" (String "h" (String "o" (String "n" rest)))))))))
    in *.
  cbn [Re.search]. rewrite Hm.
  unfold pattern at 1 2 3 4 5 6 7 8. rewrite !match_here_lit.
  unfold fence_open. simpl Str.strip_prefix.
  repeat case_decide; try done.
Qed.

(** X3: a raw text without the opening fence parses to no code and no
    explanation. *)
Theorem X3_parse_code_no_fence (output : string) :
  Str.find fence_open output = None → parse_code output = (None, None).
Proof.
  intros Hfind. unfold parse_code.
  rewrite search_None; [done|]. intros s1 s2 Hs.
  unfold pattern. by rewrite match_here_lit, (find_None_no_prefix _ _ Hfind s1 s2).
Qed.

Lemma X3_parse_code_no_fence_witness :
  parse_code "I cannot write that: ``` is not enough." = (None, None).
Proof.
  apply (X3_parse_code_no_fence "I cannot write that: ``` is not enough.").
  vm_compute. reflexivity.
Defined.

(** X4: a raw text whose first opening fence is never closed (an answer
    cut off inside the code) parses to no code and no explanation. *)
Theorem X4_parse_code_unclosed_fence (pre rest : string) :
  Str.find fence_open (pre +:+ fence_open +:+ rest) = Some (String.length pre) →
  Str.find fence_close rest = None →
  parse_code (pre +:+ fence_open +:+ rest) = (None, None).
Proof.
  intros Hopen Hclose. unfold parse_code.
  assert (Re.search pattern (pre +:+ fence_open +:+ rest) = None) as ->; [|done].
  pose proof (find_first _ _ _ Hopen) as Hno. clear Hopen.
  induction pre as [|c pre IH].
  - by apply search_unclosed.
  - pose proof (Hno "" (String c pre) eq_refl ltac:(done)) as Hc.
    rewrite app_cons in *. cbn [Re.search].
    assert (Re.match_here pattern (String c (pre +:+ fence_open +:+ rest)) = None)
      as -> by (unfold pattern at 1; by rewrite match_here_lit, Hc).
    apply IH. intros b1 b2 -> Hne. by apply (Hno (String c b1) b2).
Qed.

Lemma X4_parse_code_unclosed_fence_witness :
  parse_code ("Here: " +:+ fence_open +:+ "import streamlit as st") = (None, None).
Proof.
  apply (X4_parse_code_unclosed_fence "Here: " "import streamlit as st");
    vm_compute; reflexivity.
Defined.

(** X5: only the first fence is parsed.  When the opening fence first
    occurs after [pre], and [body] neither contains the closing fence nor
    ends with a backtick, the code is [body] ([None] for the text None)
    and the explanation is all of [post], later fences included, without
    a line feed that ends it. *)
Theorem X5_parse_code_first_fence (pre body post : string) :
  Str.find fence_open (pre +:+ fence_open +:+ body +:+ fence_close +:+ post)
    = Some (String.length pre) →
  Str.find fence_close body = None →
  Str.last_char body ≠ Some Str.backtick →
  parse_code (pre +:+ fence_open +:+ body +:+ fence_close +:+ post)
  = (if decide (body = "None") then None else Some body,
     Some (Re.upto_end post)).
Proof. intros. by apply parse_code_fenced_eq. Qed.

Lemma X5_parse_code_first_fence_witness :
  parse_code ("A: " +:+ fence_open +:+ "x = 1" +:+ fence_close
              +:+ " or ```pythony = 2``` B")
  = (Some "x = 1", Some " or ```pythony = 2``` B").
Proof.
  apply (X5_parse_code_first_fence "A: " "x = 1" " or ```pythony = 2``` B");
    vm_compute; congruence.
Defined.

(** * Further properties of the sanitization *)

Lemma replace_from_absent (old new s : string) :
  Str.find old s = None → Str.replace_from old new 0 s = s.
Proof.
  induction s as [|c s IH]; [done|]. intros Hfind.
  apply find_cons_None in Hfind as [Hp Hfind].
  cbn [Str.replace_from]. by rewrite Hp, IH.
Qed.

Lemma replace_from_length (old : string) (skip : nat) (s : string) :
  (String.length (Str.replace_from old "" skip s) ≤ String.length s)%nat.
Proof.
  revert skip. induction s as [|c s IH]; intros skip; [done|].
  cbn [Str.replace_from String.length]. destruct skip as [|skip].
  - destruct (Str.strip_prefix old (String c s)).
    + change ("" +:+ ?x) with x. specialize (IH (String.length old - 1)%nat). lia.
    + cbn [String.length]. specialize (IH 0%nat). lia.
  - specialize (IH skip). lia.
Qed.

(** X6: the sanitization never lengthens the condensed query, and leaves
    it as it is when it mentions neither streamlit nor python. *)
Theorem X6_sanitize (q : string) :
  (String.length (sanitize q) ≤ String.length q)%nat ∧
  (Str.find "streamlit" q = None → Str.find "python" q = None →
   sanitize q = q).
Proof.
  unfold sanitize, Str.replace. split.
  - etrans; [apply replace_from_length|apply replace_from_length].
  - intros Hs Hp. by rewrite (replace_from_absent _ _ _ Hs), replace_from_absent.
Qed.

Lemma X6_sanitize_witness : sanitize "Write a todo list app" = "Write a todo list app".
Proof.
  apply (X6_sanitize "Write a todo list app"); vm_compute; reflexivity.
Defined.

(** * Further properties of the budgeter *)

Lemma reduce_loop_stop (fuel : nat) (limit : Z) (tokens : list Z)
    (num_docs token_count : Z) :
  token_count ≤ limit →
  reduce_loop fuel limit tokens num_docs token_count = Ok num_docs.
Proof.
  intros H. destruct fuel; cbn [reduce_loop];
    by rewrite (proj2 (Z.ltb_ge _ _)) by lia.
Qed.

(** Every prefix longer than the one kept exceeds the limit. *)
Lemma keep_count_longer (limit : Z) (tokens : list Z) (n n' : nat) :
  (keep_count limit tokens n < n' ≤ n)%nat →
  limit < py_sum (take n' tokens).
Proof.
  induction n as [|n IH]; cbn [keep_count]; [lia|].
  destruct (limit <? py_sum (take (S n) tokens)) eqn:Hover; [|lia].
  intros Hn'. destruct (decide (n' = S n)) as [->|]; [lia|]. apply IH. lia.
Qed.

Lemma keep_count_none (limit : Z) (tokens : list Z) (n : nat) :
  (∀ n', (0 < n' ≤ n)%nat → limit < py_sum (take n' tokens)) →
  keep_count limit tokens n = 0%nat.
Proof.
  induction n as [|n IH]; intros Hover; cbn [keep_count]; [done|].
  rewrite (proj2 (Z.ltb_lt _ _)) by (apply Hover; lia).
  apply IH. intros n' Hn'. apply Hover. lia.
Qed.

Lemma py_sum_nonneg (l : list Z) : Forall (λ x, 0 ≤ x) l → 0 ≤ py_sum l.
Proof. induction 1; simpl; lia. Qed.

Lemma prefix_is_take {A} (l k : list A) : l `prefix_of` k → l = take (length l) k.
Proof. intros [t ->]. by rewrite take_app_length. Qed.

(** X7: with a positive limit and the stuff chain, the budgeter returns
    documents whose total cost is within the limit, and every longer
    prefix of the input exceeds the limit. *)
Theorem X7_reduce_within_limit (self : Chain) (docs : list Document) (limit : Z) :
  max_tokens_limit self = Some limit → 0 < limit →
  combine_docs_chain_is_stuff self = true →
  ∃ out, _reduce_tokens_below_limit self docs = Ok out ∧
    py_sum (doc_cost self <$> out) ≤ limit ∧
    ∀ longer, longer `prefix_of` docs → (length out < length longer)%nat →
      limit < py_sum (doc_cost self <$> longer).
Proof.
  intros Hl Hpos Hstuff. eexists. split; [by apply reduce_limited|].
  set (tokens := _ <$> docs).
  set (k := keep_count limit tokens (length docs)).
  assert (k ≤ length docs)%nat as Hk by apply keep_count_le.
  split.
  - rewrite fmap_take. apply keep_count_within. lia.
  - intros longer Hpre Hlen. pose proof (prefix_length _ _ Hpre) as Hle.
    rewrite (prefix_is_take _ _ Hpre), fmap_take.
    rewrite length_take, Nat.min_l in Hlen by done.
    apply (keep_count_longer limit tokens (length docs)). fold k. lia.
Qed.

Lemma X7_reduce_within_limit_witness :
  ∃ out,
    _reduce_tokens_below_limit (budget_chain (Some 100) 40)
      [doc "a"; doc "b"; doc "c"] = Ok out ∧
    py_sum (doc_cost (budget_chain (Some 100) 40) <$> out) ≤ 100 ∧
    ∀ longer, longer `prefix_of` [doc "a"; doc "b"; doc "c"] →
      (length out < length longer)%nat →
      100 < py_sum (doc_cost (budget_chain (Some 100) 40) <$> longer).
Proof.
  apply (X7_reduce_within_limit (budget_chain (Some 100) 40)
           [doc "a"; doc "b"; doc "c"] 100); [reflexivity|lia|reflexivity].
Defined.

(** X8: documents whose total cost is within the configured limit are
    returned unchanged, whatever the limit and the combine chain. *)
Theorem X8_reduce_noop (self : Chain) (docs : list Document) (limit : Z) :
  max_tokens_limit self = Some limit →
  py_sum (doc_cost self <$> docs) ≤ limit →
  _reduce_tokens_below_limit self docs = Ok docs.
Proof.
  intros Hl Hsum. unfold _reduce_tokens_below_limit.
  destruct (truthy _ && _).
  - rewrite Hl. cbn [default]. unfold id.
    rewrite py_slice_to_nat, <-(length_fmap (doc_cost self)), firstn_all.
    rewrite reduce_loop_stop by done. cbn [mbind result_bind].
    by rewrite length_fmap, py_slice_to_nat, firstn_all.
  - cbn [mbind result_bind]. by rewrite py_slice_to_nat, firstn_all.
Qed.

Lemma X8_reduce_noop_witness :
  _reduce_tokens_below_limit (budget_chain (Some 100) 40) [doc "a"; doc "b"]
  = Ok [doc "a"; doc "b"].
Proof.
  apply (X8_reduce_noop (budget_chain (Some 100) 40) [doc "a"; doc "b"] 100);
    [reflexivity|vm_compute; discriminate].
Defined.

(** X9: with a positive limit, the stuff chain and costs that are not
    negative, a first document that alone exceeds the limit makes the
    budgeter return no document at all. *)
Theorem X9_reduce_first_too_large (self : Chain) (d : Document)
    (rest : list Document) (limit : Z) :
  max_tokens_limit self = Some limit → 0 < limit →
  combine_docs_chain_is_stuff self = true →
  Forall (λ x, 0 ≤ doc_cost self x) rest →
  limit < doc_cost self d →
  _reduce_tokens_below_limit self (d :: rest) = Ok [].
Proof.
  intros Hl Hpos Hstuff Hnonneg Hd.
  rewrite (reduce_limited _ _ _ Hl Hpos Hstuff).
  rewrite keep_count_none; [done|].
  intros [|n'] Hn'; [lia|]. cbn [fmap list_fmap take firstn py_sum foldr].
  fold (doc_cost self d).
  assert (0 ≤ py_sum (take n' ((λ d0, get_num_tokens self (page_content d0)) <$> rest))).
  { apply py_sum_nonneg, Forall_take, Forall_fmap. by eapply Forall_impl. }
  unfold py_sum in *. lia.
Qed.

Lemma X9_reduce_first_too_large_witness :
  _reduce_tokens_below_limit (budget_chain (Some 30) 40) [doc "a"; doc "b"]
  = Ok [].
Proof.
  apply (X9_reduce_first_too_large (budget_chain (Some 30) 40) (doc "a")
           [doc "b"] 30); try reflexivity; try lia.
  repeat constructor; vm_compute; discriminate.
Defined.

(** With a negative limit and costs that are not negative, the loop
    first runs down to no document... *)
Lemma reduce_loop_descend (limit : Z) (tokens : list Z) (n fuel : nat) :
  limit < 0 → Forall (λ x, 0 ≤ x) tokens → (n ≤ length tokens)%nat →
  reduce_loop (fuel + n) limit tokens (Z.of_nat n) (py_sum (take n tokens))
  = reduce_loop fuel limit tokens 0 0.
Proof.
  intros Hlimit Hnonneg. induction n as [|n IH]; intros Hn.
  - by rewrite Nat.add_0_r, take_0.
  - rewrite Nat.add_succ_r. cbn [reduce_loop].
    assert (0 ≤ py_sum (take (S n) tokens))
      by by apply py_sum_nonneg, Forall_take.
    rewrite (proj2 (Z.ltb_lt _ _)) by lia.
    destruct (lookup_lt_is_Some_2 tokens n ltac:(lia)) as [x Hx].
    replace (Z.of_nat (S n) - 1) with (Z.of_nat n) by lia.
    rewrite (py_index_nat _ _ _ Hx). cbn [mbind result_bind].
    rewrite (py_sum_take_S _ _ _ Hx).
    replace (py_sum (take n tokens) + x - x) with (py_sum (take n tokens)) by lia.
    apply IH. lia.
Qed.

Lemma py_sum_drop_le (tokens : list Z) (m : nat) :
  Forall (λ x, 0 ≤ x) tokens → py_sum (drop m tokens) ≤ py_sum tokens.
Proof.
  intros Hnonneg. rewrite <-(take_drop m tokens) at 2. rewrite py_sum_app.
  assert (0 ≤ py_sum (take m tokens)) by by apply py_sum_nonneg, Forall_take.
  lia.
Qed.

(** ... and then, counting from the end of the list with negative
    indices, runs off its start. *)
Lemma reduce_loop_overrun (limit : Z) (tokens : list Z) (j k fuel : nat) :
  Forall (λ x, 0 ≤ x) tokens → py_sum tokens < - limit →
  (k + j = length tokens)%nat → (j < fuel)%nat →
  reduce_loop fuel limit tokens (- Z.of_nat k)
    (- py_sum (drop (length tokens - k) tokens))
  = Raise IndexError.
Proof.
  intros Hnonneg Htotal. revert k fuel.
  induction j as [|j IH]; intros k fuel Hk Hfuel;
    (destruct fuel as [|fuel]; [lia|]); cbn [reduce_loop];
    pose proof (py_sum_drop_le tokens (length tokens - k) Hnonneg);
    rewrite (proj2 (Z.ltb_lt _ _)) by lia.
  - unfold py_index.
    rewrite (proj2 (Z.ltb_lt _ _)) by lia.
    by rewrite (proj2 (Z.leb_gt _ _)) by lia.
  - destruct (lookup_lt_is_Some_2 tokens (length tokens - S k) ltac:(lia))
      as [x Hx].
    assert (py_index tokens (- Z.of_nat k - 1) = Ok x) as ->.
    { unfold py_index. rewrite (proj2 (Z.ltb_lt _ _)) by lia.
      rewrite (proj2 (Z.leb_le _ _)), (proj2 (Z.ltb_lt _ _)) by lia.
      replace (Z.to_nat (- Z.of_nat k - 1 + Z.of_nat (length tokens)))
        with (length tokens - S k)%nat by lia.
      by rewrite Hx. }
    cbn [mbind result_bind].
    replace (- Z.of_nat k - 1) with (- Z.of_nat (S k)) by lia.
    replace (- py_sum (drop (length tokens - k) tokens) - x)
      with (- py_sum (drop (length tokens - S k) tokens)).
    + apply IH; lia.
    + rewrite (drop_S _ _ _ Hx). cbn [py_sum foldr].
      replace (S (length tokens - S k)) with (length tokens - k)%nat by lia.
      unfold py_sum. lia.
Qed.

(** X10: with a negative limit, the stuff chain and costs that are not
    negative, documents whose total cost is less than the limit negated
    (no documents, for one) make the budgeter raise [IndexError]. *)
Theorem X10_reduce_negative_limit (self : Chain) (docs : list Document)
    (limit : Z) :
  max_tokens_limit self = Some limit → limit < 0 →
  combine_docs_chain_is_stuff self = true →
  Forall (λ d, 0 ≤ doc_cost self d) docs →
  py_sum (doc_cost self <$> docs) < - limit →
  _reduce_tokens_below_limit self docs = Raise IndexError.
Proof.
  intros Hl Hneg Hstuff Hnonneg Htotal. unfold _reduce_tokens_below_limit.
  rewrite Hl, Hstuff. cbn [truthy default].
  rewrite bool_decide_true by lia. cbn [andb]. unfold id.
  fold (doc_cost self). set (tokens := doc_cost self <$> docs) in *.
  assert (Forall (λ x, 0 ≤ x) tokens) as Htokens by by apply Forall_fmap.
  assert (length docs = length tokens) as ->
    by (unfold tokens; by rewrite length_fmap).
  rewrite py_slice_to_nat.
  replace (2 * length tokens + 1)%nat
    with (S (length tokens) + length tokens)%nat by lia.
  rewrite reduce_loop_descend by (done || lia).
  pose proof (reduce_loop_overrun limit tokens (length tokens) 0
                (S (length tokens)) Htokens Htotal) as Hrun.
  rewrite Nat.sub_0_r, drop_all in Hrun.
  change (- Z.of_nat 0) with 0 in Hrun. change (- py_sum []) with 0 in Hrun.
  rewrite Hrun by lia. done.
Qed.

Lemma X10_reduce_negative_limit_witness :
  _reduce_tokens_below_limit (budget_chain (Some (-50)) 40) [doc "a"]
  = Raise IndexError.
Proof.
  apply (X10_reduce_negative_limit (budget_chain (Some (-50)) 40) [doc "a"]
           (-50)); try reflexivity; try lia.
  repeat constructor; vm_compute; discriminate.
Defined.

(** * Further properties of the retrieval step *)

Lemma fetch_inv m self question inputs r tr :
  fetch m self question inputs = (r, tr) →
  tr = [Retrieve m question (retrieve_resp m self question)] ∧
  r = retrieve_resp m self question ≫= _reduce_tokens_below_limit self.
Proof.
  unfold fetch, call, lift, mbind, M_bind.
  destruct (retrieve_resp m self question) as [docs0|e]; [|by intros [= <- <-]].
  by intros [= <- <-].
Qed.


(** * Further properties of the entry points *)

Ltac pipeline_cases H :=
  unfold pipeline, condense, synthesize, call, lift in H;
  unfold mbind, M_bind in H;
  repeat case_match; simplify_eq/=;
  repeat match goal with
    | H : fetch _ _ _ _ = _ |- _ => apply fetch_inv in H as [-> H]
    | H : Ok _ = ?x ≫= _ |- _ => destruct x eqn:?; simplify_eq/=
    | H : Raise _ = ?x ≫= _ |- _ => destruct x eqn:?; simplify_eq/=
    end.

Lemma assemble_trace self code expl docs q verdict r tr :
  assemble self code expl docs q verdict = (r, tr) → tr = [].
Proof.
  unfold assemble, lift, mbind, M_bind, mret, M_ret. intros H.
  by repeat case_match; simplify_eq/=.
Qed.

Lemma assemble_Ok self code expl docs q verdict out tr :
  assemble self code expl docs q verdict = (Ok out, tr) →
  ∃ k0 k1,
    py_index (output_key self) 0 = Ok k0 ∧
    py_index (output_key self) 1 = Ok k1 ∧
    out = (if return_revision_request self
           then <["revision_request" := verdict]> else id)
          ((if return_generated_question self
            then <["generated_question" := PStr q]> else id)
           ((if return_source_documents self
             then <["source_documents" := PDocs docs]> else id)
            (<[k1 := of_opt_str expl]> (<[k0 := of_opt_str code]> ∅)))).
Proof.
  unfold assemble, lift, mbind, M_bind, mret, M_ret. intros H.
  destruct (py_index (output_key self) 0) as [k0|]; [|done].
  destruct (py_index (output_key self) 1) as [k1|]; [|done].
  exists k0, k1. split_and!; try done.
  by repeat case_match; simplify_eq/=.
Qed.

Ltac tail_cases :=
  repeat match goal with
    | H : assemble _ _ _ _ _ _ = (_, ?l) |- _ =>
        pose proof (assemble_trace _ _ _ _ _ _ _ _ H); subst l
    | H : critic_step _ ?o = _ |- _ =>
        apply critic_step_inv in H; destruct o; destruct H as [? ?];
        simplify_eq/=
    end;
  rewrite ?app_nil_r in *.

(** X12: in every run of [_call] and of [_acall] the services are called
    in the order condenser, retriever, synthesizer, critic, each at most
    once; [_call] calls the blocking condenser, retriever and synthesizer
    and [_acall] the suspendable ones. *)
Theorem X12_call_order gch self inputs :
  (stage_of <$> (_call gch self inputs).2)
    `prefix_of` [SCondense; SRetrieve; SSynthesize; SCritique] ∧
  (stage_of <$> (_acall gch self inputs).2)
    `prefix_of` [SCondense; SRetrieve; SSynthesize; SCritique] ∧
  set_mode Blocking <$> (_call gch self inputs).2 = (_call gch self inputs).2 ∧
  set_mode Suspendable <$> (_acall gch self inputs).2
    = (_acall gch self inputs).2.
Proof.
  assert (∀ m r tr, pipeline m gch self inputs = (r, tr) →
            (stage_of <$> tr)
              `prefix_of` [SCondense; SRetrieve; SSynthesize; SCritique] ∧
            set_mode m <$> tr = tr) as Hshape.
  { intros m r tr H. pipeline_cases H; tail_cases.
    all: split; [by eexists|done]. }
  destruct (Hshape Blocking _ _
              (surjective_pairing (pipeline Blocking gch self inputs)))
    as [H1 H2].
  destruct (Hshape Suspendable _ _
              (surjective_pairing (pipeline Suspendable gch self inputs)))
    as [H3 H4].
  exact (conj H1 (conj H3 (conj H2 H4))).
Qed.

(** X13: a service that raises ends the run: its call is the last one
    made, and the run raises the exception of the service. *)
Theorem X13_failure_propagates gch self inputs r tr e err :
  _call gch self inputs = (r, tr) ∨ _acall gch self inputs = (r, tr) →
  e ∈ tr → event_error e = Some err →
  last tr = Some e ∧ r = Raise err.
Proof.
  intros Hrun Hin Herr. apply entry_point_pipeline in Hrun as [m H].
  pipeline_cases H; tail_cases.
  all: elem_inv Hin; simplify_eq/=; try done.
  all: repeat match goal with
         | H : context [constitutional_chain_run ?s ?c] |- _ =>
             destruct (constitutional_chain_run s c); simplify_eq/=
         end; done.
Qed.


Lemma X13_failure_propagates_witness :
  let e := Synthesize Blocking demo_docs
             (<["chat_history" := PStr ""]> (demo_inputs "q"))
             (Raise (ServiceError "timeout")) in
  last (_call demo_get_chat_history failing_chain (demo_inputs "q")).2 = Some e ∧
  (_call demo_get_chat_history failing_chain (demo_inputs "q")).1
  = Raise (ServiceError "timeout").
Proof.
  intros e.
  apply (X13_failure_propagates demo_get_chat_history failing_chain
           (demo_inputs "q") _ _ e (ServiceError "timeout")
           (or_introl (surjective_pairing _))).
  - apply (list_elem_of_lookup_2 _ 2). vm_compute. reflexivity.
  - reflexivity.
Defined.

Lemma dict_get_Ok (d : gmap string pyval) (k : string) (v : pyval) :
  dict_get d k = Ok v → d !! k = Some v.
Proof. unfold dict_get. by destruct (d !! k); intros [=]; subst. Qed.


Lemma pipeline_synthesize m gch self inputs r tr :
  pipeline m gch self inputs = (r, tr) →
  ∀ m' docs kwargs resp, Synthesize m' docs kwargs resp ∈ tr →
    ∃ request q docs0 history h,
      m' = m ∧
      inputs !! "question" = Some request ∧
      tr !! 0%nat = Some (Condense m request (Ok q)) ∧
      tr !! 1%nat = Some (Retrieve m q (Ok docs0)) ∧
      _reduce_tokens_below_limit self docs0 = Ok docs ∧
      inputs !! "chat_history" = Some history ∧
      default gch (get_chat_history self) history = Ok h ∧
      kwargs = <["chat_history" := PStr h]> inputs ∧
      resp = synthesize_resp m self docs kwargs.
Proof.
  intros H m' docs kw resp Hin. pipeline_cases H; tail_cases.
  all: elem_inv Hin.
  all: repeat match goal with
         | H : dict_get _ _ = Ok _ |- _ => apply dict_get_Ok in H
         end.
  all: by eexists _, _, _, _, _.
Qed.

(** X14: every call to the synthesizer, in [_call] and in [_acall], is
    made after the condenser and the retriever answered, with the
    documents that the budgeter made of the documents retrieved for the
    condensed query, and with the inputs in which the chat history is
    replaced by the text the history formatter gives for it: the custom
    formatter when one is set, the default one otherwise. *)
Theorem X14_synthesizer_arguments gch self inputs r tr m docs kwargs resp :
  _call gch self inputs = (r, tr) ∨ _acall gch self inputs = (r, tr) →
  Synthesize m docs kwargs resp ∈ tr →
  ∃ request q docs0 history h,
    inputs !! "question" = Some request ∧
    tr !! 0%nat = Some (Condense m request (Ok q)) ∧
    tr !! 1%nat = Some (Retrieve m q (Ok docs0)) ∧
    _reduce_tokens_below_limit self docs0 = Ok docs ∧
    inputs !! "chat_history" = Some history ∧
    default gch (get_chat_history self) history = Ok h ∧
    kwargs = <["chat_history" := PStr h]> inputs.
Proof.
  intros Hrun Hin. apply entry_point_pipeline in Hrun as [m' Hrun].
  destruct (pipeline_synthesize _ _ _ _ _ _ Hrun _ _ _ _ Hin)
    as (request & q & docs0 & history & h & -> & ? & ? & ? & ? & ? & ? & ? & ?).
  by exists request, q, docs0, history, h.
Qed.

Lemma X14_synthesizer_arguments_witness :
  ∃ request q docs0 history h,
    demo_inputs "q" !! "question" = Some request ∧
    (_call demo_get_chat_history failing_chain (demo_inputs "q")).2 !! 0%nat
      = Some (Condense Blocking request (Ok q)) ∧
    (_call demo_get_chat_history failing_chain (demo_inputs "q")).2 !! 1%nat
      = Some (Retrieve Blocking q (Ok docs0)) ∧
    _reduce_tokens_below_limit failing_chain docs0 = Ok demo_docs ∧
    demo_inputs "q" !! "chat_history" = Some history ∧
    default demo_get_chat_history (get_chat_history failing_chain) history = Ok h ∧
    (<["chat_history" := PStr ""]> (demo_inputs "q") : gmap string pyval)
    = <["chat_history" := PStr h]> (demo_inputs "q").
Proof.
  apply (X14_synthesizer_arguments demo_get_chat_history failing_chain
           (demo_inputs "q") _ _ Blocking demo_docs
           (<["chat_history" := PStr ""]> (demo_inputs "q"))
           (Raise (ServiceError "timeout"))
           (or_introl (surjective_pairing _))).
  apply (list_elem_of_lookup_2 _ 2). vm_compute. reflexivity.
Defined.



Lemma check_kwargs_dup (kwargs : gmap string pyval) :
  is_Some (kwargs !! "input_documents") ∨ is_Some (kwargs !! "callbacks") →
  ∃ msg, check_kwargs kwargs = Raise (TypeError msg).
Proof.
  unfold check_kwargs. intros [[v ->]|[v ->]]; [by eexists|].
  destruct (kwargs !! "input_documents"); by eexists.
Qed.

(** X16: inputs that carry a key [input_documents] or [callbacks] clash
    with the keyword arguments of the call to the synthesizer: no run
    returns, and the synthesizer is never called. *)
Theorem X16_keyword_clash gch self inputs r tr :
  _call gch self inputs = (r, tr) ∨ _acall gch self inputs = (r, tr) →
  is_Some (inputs !! "input_documents") ∨ is_Some (inputs !! "callbacks") →
  (∀ out, r ≠ Ok out) ∧
  (stage_of <$> tr) `prefix_of` [SCondense; SRetrieve].
Proof.
  intros Hrun Hdup. apply entry_point_pipeline in Hrun as [m H].
  assert (∀ h, ∃ msg, check_kwargs (<["chat_history" := PStr h]> inputs)
                      = Raise (TypeError msg)) as Hclash.
  { intros h. apply check_kwargs_dup.
    by rewrite !lookup_insert_ne by done. }
  pipeline_cases H; tail_cases.
  all: try match goal with
         | H : check_kwargs (<[_ := PStr ?h]> _) = Ok _ |- _ =>
             destruct (Hclash h) as [? ?]; congruence
         end.
  all: split; [done|by eexists].
Qed.

Lemma X16_keyword_clash_witness :
  (_call demo_get_chat_history failing_chain
     (<["callbacks" := PNone]> (demo_inputs "q"))).1 ≠ Ok ∅.
Proof.
  apply (X16_keyword_clash demo_get_chat_history failing_chain
           (<["callbacks" := PNone]> (demo_inputs "q")) _ _
           (or_introl (surjective_pairing _))).
  right. vm_compute. by eexists.
Defined.

Lemma py_index_Ok_length {A} (l : list A) (i : Z) (x : A) :
  py_index l i = Ok x → 0 ≤ i → i < Z.of_nat (length l).
Proof.
  unfold py_index. intros H Hi.
  rewrite (proj2 (Z.ltb_ge _ _)) in H by lia.
  destruct (Z.ltb_spec i (Z.of_nat (length l))); [done|].
  by rewrite andb_false_r in H.
Qed.

Lemma pipeline_Ok m gch self inputs out tr :
  pipeline m gch self inputs = (Ok out, tr) →
  ∃ request q docs0 docs kwargs answer verdict trc,
    tr = Condense m request (Ok q) :: Retrieve m q (Ok docs0)
         :: Synthesize m docs kwargs (Ok answer) :: trc ∧
    critic_step self (parse_code answer).1 = (Ok verdict, trc) ∧
    assemble self (parse_code answer).1 (parse_code answer).2 docs
      (sanitize q) verdict = (Ok out, []).
Proof.
  intros H. pipeline_cases H.
  match goal with
  | H : assemble _ _ _ _ _ _ = (_, ?l) |- _ =>
      pose proof (assemble_trace _ _ _ _ _ _ _ _ H); subst l
  end.
  rewrite app_nil_r.
  match goal with H : parse_code _ = _ |- _ => rename H into Hp end.
  eexists _, _, _, _, _, _, _, _. split; [done|]. by rewrite Hp.
Qed.

(** X17: a chain whose [output_key] has fewer than two entries never
    returns from [_call] or [_acall]. *)
Theorem X17_short_output_key gch self inputs r tr :
  _call gch self inputs = (r, tr) ∨ _acall gch self inputs = (r, tr) →
  (length (output_key self) < 2)%nat →
  ∀ out, r ≠ Ok out.
Proof.
  intros Hrun Hlen out ->. apply entry_point_pipeline in Hrun as [m H].
  apply pipeline_Ok in H as (? & ? & ? & ? & ? & ? & ? & ? & _ & _ & H).
  apply assemble_Ok in H as (k0 & k1 & _ & H1 & _).
  apply py_index_Ok_length in H1; lia.
Qed.

Lemma X17_short_output_key_witness :
  let self := {| combine_docs_chain_run := λ _ _, Ok "";
                 combine_docs_chain_arun := λ _ _, Ok "";
                 combine_docs_chain_is_stuff := true;
                 get_num_tokens := λ _, 0;
                 question_generator_run := λ _, Ok "";
                 question_generator_arun := λ _, Ok "";
                 output_key := ["code"];
                 constitutional_chain_run := λ _, Ok "";
                 return_source_documents := false;
                 return_generated_question := false;
                 return_revision_request := false;
                 get_chat_history := None;
                 retriever_get_relevant_documents := λ _, Ok [];
                 retriever_aget_relevant_documents := λ _, Ok [];
                 max_tokens_limit := None |} in
  (_call demo_get_chat_history self (demo_inputs "q")).1 ≠ Ok ∅.
Proof.
  intros self.
  apply (X17_short_output_key demo_get_chat_history self (demo_inputs "q") _ _
           (or_introl (surjective_pairing _))).
  simpl. lia.
Defined.

(** X18: when a run of a chain with the output keys [code] and
    [explanation] returns, the output holds under these keys what
    [parse_code] extracts from the answer of the synthesizer, and, when
    source documents are asked for, the documents that were handed to the
    synthesizer. *)
Theorem X18_output_values gch self inputs r tr out :
  _call gch self inputs = (r, tr) ∨ _acall gch self inputs = (r, tr) →
  r = Ok out →
  output_key self = ["code"; "explanation"] →
  ∃ m docs kwargs answer,
    tr !! 2%nat = Some (Synthesize m docs kwargs (Ok answer)) ∧
    out !! "code" = Some (of_opt_str (parse_code answer).1) ∧
    out !! "explanation" = Some (of_opt_str (parse_code answer).2) ∧
    out !! "source_documents"
      = (if return_source_documents self then Some (PDocs docs) else None).
Proof.
  intros Hrun -> Hkey. apply entry_point_pipeline in Hrun as [m H].
  apply pipeline_Ok in H
    as (request & q & docs0 & docs & kw & answer & verdict & trc & -> & _ & H).
  apply assemble_Ok in H as (k0 & k1 & H0 & H1 & ->).
  rewrite Hkey in H0, H1. injection H0 as <-. injection H1 as <-.
  exists m, docs, kw, answer. split; [done|].
  destruct (return_revision_request self), (return_generated_question self),
    (return_source_documents self); by simplify_map_eq.
Qed.

Lemma X18_output_values_witness :
  ∃ m docs kwargs answer,
    (_call demo_get_chat_history (demo_chain "```pythonx = 1``` Done.")
       (demo_inputs "q")).2 !! 2%nat
      = Some (Synthesize m docs kwargs (Ok answer)).
Proof.
  assert (∃ out, (_call demo_get_chat_history
                    (demo_chain "```pythonx = 1``` Done.")
                    (demo_inputs "q")).1 = Ok out) as [out Hr]
    by (eexists; vm_compute; reflexivity).
  destruct (X18_output_values demo_get_chat_history
              (demo_chain "```pythonx = 1``` Done.") (demo_inputs "q") _ _ out
              (or_introl (surjective_pairing _)) Hr eq_refl)
    as (m & docs & kw & answer & H & _).
  by exists m, docs, kw, answer.
Defined.

#[local] Set Warnings "-clear-no-such-hyp".

(** X19: when a run of a chain with the output keys [code] and
    [explanation] returns, the keys of the output are those listed by
    [output_keys], and in addition [revision_request] when the chain is
    set to return it: [output_keys] never lists that key. *)
Theorem X19_output_keys gch self inputs r tr out :
  _call gch self inputs = (r, tr) ∨ _acall gch self inputs = (r, tr) →
  r = Ok out →
  output_key self = ["code"; "explanation"] →
  dom out = list_to_set (output_keys self)
            ∪ (if return_revision_request self
               then {["revision_request"]} else ∅) ∧
  "revision_request" ∉ output_keys self.
Proof.
  intros Hrun -> Hkey. apply entry_point_pipeline in Hrun as [m H].
  apply pipeline_Ok in H
    as (request & q & docs0 & docs & kw & answer & verdict & trc & -> & _ & H).
  apply assemble_Ok in H as (k0 & k1 & H0 & H1 & ->).
  rewrite Hkey in H0, H1. injection H0 as <-. injection H1 as <-.
  unfold output_keys.
  destruct (return_revision_request self), (return_generated_question self),
    (return_source_documents self); cbn [id app list_to_set];
    rewrite ?dom_insert_L, dom_empty_L; split; set_solver.
Qed.

Lemma X19_output_keys_witness :
  "revision_request" ∉ output_keys (demo_chain "```pythonx = 1``` Done.").
Proof.
  assert (∃ out, (_call demo_get_chat_history
                    (demo_chain "```pythonx = 1``` Done.")
                    (demo_inputs "q")).1 = Ok out) as [out Hr]
    by (eexists; vm_compute; reflexivity).
  exact (proj2 (X19_output_keys demo_get_chat_history
                  (demo_chain "```pythonx = 1``` Done.") (demo_inputs "q") _ _ out
                  (or_introl (surjective_pairing _)) Hr eq_refl)).
Defined.

(** Two computations with the same result and the same calls up to the
    mode, continued by functions with the same property. *)
Lemma bind_mode_congr {A B} (m1 m2 : M A) (f1 f2 : A → M B) :
  m1.1 = m2.1 → m1.2 = set_mode Suspendable <$> m2.2 →
  (∀ a, (f1 a).1 = (f2 a).1 ∧ (f1 a).2 = set_mode Suspendable <$> (f2 a).2) →
  (m1 ≫= f1).1 = (m2 ≫= f2).1 ∧
  (m1 ≫= f1).2 = set_mode Suspendable <$> (m2 ≫= f2).2.
Proof.
  destruct m1 as [[a1|e1] t1], m2 as [[a2|e2] t2]; cbn [fst snd];
    intros [=] -> Hf; subst; unfold mbind, M_bind; try done.
  destruct (Hf a2) as [H1 H2]. destruct (f1 a2), (f2 a2). cbn [fst snd] in *.
  subst. by rewrite fmap_app.
Qed.

Lemma critic_step_mode self code m :
  (critic_step self code).2 = set_mode m <$> (critic_step self code).2.
Proof.
  destruct (critic_step self code) as [r tr] eqn:H.
  apply critic_step_inv in H. destruct code; destruct H as [H1 H2]; by subst.
Qed.

Lemma assemble_mode self code expl docs q verdict m :
  (assemble self code expl docs q verdict).2
  = set_mode m <$> (assemble self code expl docs q verdict).2.
Proof.
  destruct (assemble self code expl docs q verdict) as [r tr] eqn:H.
  by apply assemble_trace in H as ->.
Qed.

(** X20: when each suspendable service responds as its blocking
    counterpart, [_acall] makes the calls that [_call] makes, in the same
    order, with the same arguments and the same responses, to the
    suspendable services; the critic is called through its blocking
    [run] in both. *)
Theorem X20_same_calls gch self inputs :
  (∀ request, question_generator_arun self request
              = question_generator_run self request) →
  (∀ question, retriever_aget_relevant_documents self question
               = retriever_get_relevant_documents self question) →
  (∀ docs kwargs, combine_docs_chain_arun self docs kwargs
                  = combine_docs_chain_run self docs kwargs) →
  (_acall gch self inputs).2
  = set_mode Suspendable <$> (_call gch self inputs).2.
Proof.
  intros Hcondense Hretrieve Hsynth.
  change ((pipeline Suspendable gch self inputs).2
          = set_mode Suspendable <$> (pipeline Blocking gch self inputs).2).
  unfold pipeline.
  apply bind_mode_congr; [done..|intros request].
  apply bind_mode_congr;
    [apply Hcondense|cbn; by rewrite Hcondense|intros new_request].
  apply bind_mode_congr;
    [apply bind_mode_congr;
       [apply Hretrieve|cbn; by rewrite Hretrieve|done]..
    |intros docs].
  apply bind_mode_congr; [done..|intros history].
  apply bind_mode_congr; [done..|intros chat_history_str].
  apply bind_mode_congr; [done..|intros _].
  apply bind_mode_congr;
    [apply Hsynth|cbn; by rewrite Hsynth|intros answer].
  destruct (parse_code answer) as [code expl].
  apply bind_mode_congr; [done|apply critic_step_mode|intros verdict].
  split; [done|apply assemble_mode].
Qed.

Lemma X20_same_calls_witness :
  (_acall demo_get_chat_history (demo_chain "```pythonx = 1``` Done.")
     (demo_inputs "q")).2
  = set_mode Suspendable
      <$> (_call demo_get_chat_history (demo_chain "```pythonx = 1``` Done.")
             (demo_inputs "q")).2.
Proof.
  apply (X20_same_calls demo_get_chat_history
           (demo_chain "```pythonx = 1``` Done.") (demo_inputs "q"));
    reflexivity.
Defined.

(** * The menu of [secure_app.py] *)



